(** * geotrace/lbs: cell-tower geolocation over a local MongoDB collection

    A shallow embedding of package [lbs] (GetCells, Get, Records) and of the
    [lbs-import] program, followed by the properties of the specification
    that concern them.

    Conventions of the embedding:
    - Go's [float64] and the functions of [math] and [strconv] used on it
      are an interface, [GoFloat64].  The program text is embedded once,
      over that interface; it is read over the reals (exact arithmetic, the
      model in which the geometric properties are stated) and over IEEE
      binary64 (where the quotient 0/0 is a NaN).
    - Unsigned and signed machine integers are [Z]; the only arithmetic the
      program performs on them is the increment of two [uint64] counters,
      whose wrap-around is written out.
    - A run-time panic is an explicit outcome.
    - The MongoDB collection is state threaded through every operation,
      together with the trace of the operations issued against it. *)

From Stdlib Require Import ZArith String Ascii List Reals Lra Lia.
From Stdlib Require PrimFloat Uint63.
From stdpp Require Import gmap strings list fin_maps.

Set Default Proof Using "Type".
Local Open Scope string_scope.
Local Open Scope list_scope.
Local Open Scope Z_scope.

(** ** Outcomes: a returned value or a run-time panic *)

Inductive panic : Type :=
| IndexOutOfRange (index length : nat)
| NilDereference.

Inductive outcome (A : Type) : Type :=
| Return (a : A)
| Panic (p : panic).
Arguments Return {A} a.
Arguments Panic {A} p.

Global Instance outcome_bind : MBind outcome := fun A B k m =>
  match m with
  | Return a => k a
  | Panic p => Panic p
  end.

(** [l[i]]: indexing a slice panics outside of its bounds. *)
Definition index {A} (l : list A) (i : nat) : outcome A :=
  match l !! i with
  | Some x => Return x
  | None => Panic (IndexOutOfRange i (length l))
  end.

(** [p.f] through a pointer [p]: a nil pointer panics. *)
Definition deref {A} (p : option A) : outcome A :=
  match p with
  | Some x => Return x
  | None => Panic NilDereference
  end.

(** ** The float64 interface *)

Class GoFloat64 : Type := {
  float64 : Type;
  (** conversion of an integer value or of an integer-valued constant *)
  of_int : Z -> float64;
  (** the constant expression [math.Pi / 180.0], evaluated exactly and then
      converted *)
  Pi_180 : float64;
  fadd : float64 -> float64 -> float64;
  fsub : float64 -> float64 -> float64;
  fmul : float64 -> float64 -> float64;
  fdiv : float64 -> float64 -> float64;
  (** the comparison [x > y] *)
  fgt : float64 -> float64 -> bool;
  (** package math *)
  Sin : float64 -> float64;
  Cos : float64 -> float64;
  Asin : float64 -> float64;
  Sqrt : float64 -> float64;
  Min : float64 -> float64 -> float64;
  Pow : float64 -> float64 -> float64;
  (** [strconv.ParseFloat(s, 64)]; [None] when it returns an error *)
  ParseFloat : string -> option float64
}.

Declare Scope f64_scope.
Delimit Scope f64_scope with f64.
Infix "+" := fadd : f64_scope.
Infix "-" := fsub : f64_scope.
Infix "*" := fmul : f64_scope.
Infix "/" := fdiv : f64_scope.
Infix ">?" := fgt : f64_scope.

(** ** External packages, as far as the program uses them *)

(** Package [github.com/geotrace/geo]: a point is built by
    [geo.NewPoint(lon, lat)] and read by [Longitude()] and [Latitude()]. *)
Module geo.
Record Point `{GoFloat64} : Type := NewPoint {
  Longitude : float64;
  Latitude : float64
}.
Arguments NewPoint {_} Longitude Latitude.
End geo.

(** Package [github.com/geotrace/locator]: the request and response of the
    geolocation interface.  [CellTowers] is a slice of pointers
    ([[]*locator.CellTower] in the test), so an entry may be nil. *)
Module locator.
Record CellTower : Type := {
  MobileCountryCode : Z;   (* uint16 *)
  MobileNetworkCode : Z;   (* uint16 *)
  LocationAreaCode : Z;    (* uint16 *)
  CellId : Z;              (* uint32 *)
  SignalStrength : Z;      (* int16 *)
  Age : Z;
  TimingAdvance : Z
}.

Record WifiAccessPoint : Type := {
  MacAddress : string;
  WifiSignalStrength : Z
}.

Record Request : Type := {
  HomeMobileCountryCode : Z;   (* uint16 *)
  HomeMobileNetworkCode : Z;   (* uint16 *)
  RadioType : string;
  CellTowers : list (option CellTower);
  WifiAccessPoints : list WifiAccessPoint
}.

Record Point `{GoFloat64} : Type := {
  Lat : float64;
  Lng : float64
}.

Record Response `{GoFloat64} : Type := {
  Location : Point;
  Accuracy : float64
}.
End locator.

(** ** Package lbs: keys, data, errors *)

Definition CollectionName : string := "lbs".
Definition DefaultRadioType : string := "gsm".

(** [Key]: the composite key of a tower. *)
Record Key : Type := {
  RadioType : string;
  MobileCountryCode : Z;   (* uint16 *)
  MobileNetworkCode : Z;   (* uint16 *)
  LocationAreaCode : Z;    (* uint16 *)
  CellId : Z               (* uint32 *)
}.

Global Instance Key_eq_dec : EqDecision Key.
Proof. solve_decision. Defined.

Global Instance Key_countable : Countable Key.
Proof.
  refine (inj_countable'
    (fun k => (RadioType k, MobileCountryCode k, MobileNetworkCode k,
               LocationAreaCode k, CellId k))
    (fun t => match t with
              | (r, mcc, mnc, lac, cell) =>
                  {| RadioType := r; MobileCountryCode := mcc;
                     MobileNetworkCode := mnc; LocationAreaCode := lac;
                     CellId := cell |}
              end) _).
  by intros [].
Defined.

(** [Data]: what is stored for a tower. *)
Record Data `{GoFloat64} : Type := {
  Location : geo.Point;
  Accuracy : float64
}.

Inductive error : Type :=
| ErrEmptyRequest                 (* "lbs: empty request" *)
| ErrNotFound                     (* "lbs: not found" *)
| StoreError (msg : string).      (* any error value returned by mgo *)

(** ** The store (package mgo, as far as the program uses it)

    A session gives access to one collection, whose documents are indexed by
    their [Key] (the unique index that [EnsureIndex] asks for).  [trace]
    lists the operations issued so far, oldest first.  [fault n], when it is
    [Some (k, e)], makes the operation number [n] fail with the error [e]
    after it has handled [k] documents. *)
Module mgo.
Section Store.
Context `{GoFloat64}.

(** The query document built by GetCells:
    [{radio, mcc, mnc, $or: [{lac, cell}, ...]}]. *)
Record Search : Type := {
  s_radio : string;
  s_mcc : Z;
  s_mnc : Z;
  s_or : list (Z * Z)
}.

Inductive op : Type :=
| OpEnsureIndex
| OpFind (q : Search)
| OpCount
| OpRemoveAll
| OpBulkRun (staged : list (Key * Data)).

Record Session : Type := {
  docs : gmap Key Data;
  trace : list op;
  fault : nat -> option (nat * error)
}.

Definition issue (o : op) (docs' : gmap Key Data) (s : Session) : Session :=
  {| docs := docs'; trace := trace s ++ [o]; fault := fault s |}.

Definition next_fault (s : Session) : option (nat * error) :=
  fault s (length (trace s)).

(** A document matches when radio, mcc and mnc are equal to the query's
    and its (lac, cell) pair is one of the [$or] alternatives. *)
Definition matches (q : Search) (k : Key) : bool :=
  String.eqb (RadioType k) (s_radio q)
  && (MobileCountryCode k =? s_mcc q)
  && (MobileNetworkCode k =? s_mnc q)
  && existsb (fun alt => (LocationAreaCode k =? alt.1) && (CellId k =? alt.2))
             (s_or q).

(** [coll.Find(q).Select({location:1, range:1, _id:0}).All(&cells)]: the
    matching documents' data in the store's order.  On a failure (the
    server is not reached, or it rejects the query), [All] leaves the
    documents decoded so far in [cells]. *)
Definition Find (q : Search) (s : Session) : (list Data * option error) * Session :=
  let found := (List.filter (fun kd => matches q kd.1) (map_to_list (docs s))).*2 in
  match next_fault s with
  | None => ((found, None), issue (OpFind q) (docs s) s)
  | Some (k, e) => ((take k found, Some e), issue (OpFind q) (docs s) s)
  end.

(** [coll.Count()]: the number of documents; 0 with the error on failure. *)
Definition Count (s : Session) : (Z * option error) * Session :=
  match next_fault s with
  | None => ((Z.of_nat (size (docs s)), None), issue OpCount (docs s) s)
  | Some (_, e) => ((0, Some e), issue OpCount (docs s) s)
  end.

(** [coll.EnsureIndex(...)]: the documents are already unique by key. *)
Definition EnsureIndex (s : Session) : option error * Session :=
  (snd <$> next_fault s, issue OpEnsureIndex (docs s) s).

(** [coll.RemoveAll(nil)]: removes every document and reports how many. *)
Definition RemoveAll (s : Session) : (Z * option error) * Session :=
  match next_fault s with
  | None => ((Z.of_nat (size (docs s)), None), issue OpRemoveAll ∅ s)
  | Some (k, e) =>
      ((0, Some e),
       issue OpRemoveAll (list_to_map (drop k (map_to_list (docs s)))) s)
  end.

(** One staged [bulk.Upsert(key, {$set: data})]: the document of that key
    gets the data, and is created when there is none. *)
Definition upsert (m : gmap Key Data) (kd : Key * Data) : gmap Key Data :=
  <[kd.1 := kd.2]> m.

(** [bulk.Run()] of an unordered bulk; on a failure only part of the
    staged operations has been applied. *)
Definition BulkRun (staged : list (Key * Data)) (s : Session)
  : option error * Session :=
  match next_fault s with
  | None => (None, issue (OpBulkRun staged) (foldl upsert (docs s) staged) s)
  | Some (k, e) =>
      (Some e, issue (OpBulkRun staged) (foldl upsert (docs s) (take k staged)) s)
  end.
End Store.
End mgo.

(** ** Package lbs: the resolution engine *)

Section Lbs.
Context `{GoFloat64}.
Local Open Scope f64_scope.

(** [DB]: the database name and the session. *)
Record DB : Type := {
  name : string;
  session : mgo.Session
}.

Definition InitDB (session : mgo.Session) (name : string) : DB * option error :=
  ({| name := name; session := session |}, None).

Definition with_session (db : DB) (s : mgo.Session) : DB :=
  {| name := name db; session := s |}.

(** One alternative of the query: [{lac, cell}]. *)
Definition alt_of (cell : locator.CellTower) : Z * Z :=
  (locator.LocationAreaCode cell, locator.CellId cell).

(** The loop filling [cellsData]: one alternative per observed tower. *)
Fixpoint cellsData (towers : list (option locator.CellTower))
  : outcome (list (Z * Z)) :=
  match towers with
  | [] => Return []
  | p :: rest =>
      cell ← deref p;
      tl ← cellsData rest;
      Return (alt_of cell :: tl)
  end.

(** The country and network codes of the tower that the request names
    first, which [search] falls back on. *)
Definition first_codes (req : locator.Request) : option (Z * Z) :=
  match locator.CellTowers req with
  | Some cell :: _ =>
      Some (locator.MobileCountryCode cell, locator.MobileNetworkCode cell)
  | _ => None
  end.

(** The query that [GetCells] builds: the radio type, country code and
    network code of the request, with their defaults, and the alternatives. *)
Definition search (req : locator.Request) : outcome mgo.Search :=
  let radio := locator.RadioType req in
  let mcc := locator.HomeMobileCountryCode req in
  let mnc := locator.HomeMobileNetworkCode req in
  let radio := if String.eqb radio "" then DefaultRadioType else radio in
  mcc ← (if mcc =? 0
         then p ← index (locator.CellTowers req) 0;
              cell ← deref p;
              Return (locator.MobileCountryCode cell)
         else Return mcc);
  mnc ← (if mnc =? 0
         then p ← index (locator.CellTowers req) 0;
              cell ← deref p;
              Return (locator.MobileNetworkCode cell)
         else Return mnc);
  alts ← cellsData (locator.CellTowers req);
  Return {| mgo.s_radio := radio; mgo.s_mcc := mcc; mgo.s_mnc := mnc;
            mgo.s_or := alts |}.

(** [GetCells]: the stored data of the towers named by the request. *)
Definition GetCells (db : DB) (req : locator.Request)
  : outcome (list Data * option error) * DB :=
  if (length (locator.CellTowers req) =? 0)%nat
     && (length (locator.WifiAccessPoints req) =? 0)%nat
  then (Return ([], Some ErrEmptyRequest), db)
  else
    match search req with
    | Panic p => (Panic p, db)
    | Return q =>
        let '(res, s) := mgo.Find q (session db) in
        (Return res, with_session db s)
    end.

Definition EARTH_RADIUS : Z := 6378137.

(** The first loop of [Get]: the sums of the longitudes and latitudes. *)
Definition sum_step (acc : float64 * float64) (cell : Data) : float64 * float64 :=
  (acc.1 + geo.Longitude (Location cell), acc.2 + geo.Latitude (Location cell)).

(** The body of the second loop of [Get], before the comparison. *)
Definition dist (lon lat : float64) (cell : Data) : float64 :=
  let lat2 := geo.Latitude (Location cell) in
  let lon2 := geo.Longitude (Location cell) in
  let dLat := Pi_180 * (lat2 - lat) / of_int 2 in
  let dLon := Pi_180 * (lon2 - lon) / of_int 2 in
  let lat1 := Pi_180 * lat in
  let lat2 := Pi_180 * lat2 in
  let a := Pow (Sin dLat) (of_int 2)
           + Cos lat1 * Cos lat2 * Pow (Sin dLon) (of_int 2) in
  let c := Asin (Min (of_int 1) (Sqrt a)) in
  of_int (2 * EARTH_RADIUS) * c + Accuracy cell.

Definition acc_step (lon lat : float64) (accuracy : float64) (cell : Data) : float64 :=
  let d := dist lon lat cell in
  if d >? accuracy then d else accuracy.

(** What [Get] computes from the matched cells. *)
Definition average (cells : list Data) : locator.Response :=
  let '(lon, lat) := foldl sum_step (of_int 0, of_int 0) cells in
  let count := of_int (Z.of_nat (length cells)) in
  let lon := lon / count in
  let lat := lat / count in
  let accuracy := foldl (acc_step lon lat) (of_int 0) cells in
  {| locator.Location := {| locator.Lat := lat; locator.Lng := lon |};
     locator.Accuracy := accuracy |}.

(** [Get]: the position estimated for the request. *)
Definition Get (db : DB) (req : locator.Request)
  : outcome (option locator.Response * option error) * DB :=
  match GetCells db req with
  | (Panic p, db') => (Panic p, db')
  | (Return (_, Some err), db') => (Return (None, Some err), db')
  | (Return (cells, None), db') => (Return (Some (average cells), None), db')
  end.

(** [Records]: the number of documents; the error of [Count] is dropped. *)
Definition Records (db : DB) : Z * DB :=
  let '((total, _), s) := mgo.Count (session db) in
  (total, with_session db s).
End Lbs.

(** ** Packages strings, strconv and encoding/csv, as far as lbs-import
    uses them *)

Module strings.
Definition is_upper (c : ascii) : bool :=
  let n := nat_of_ascii c in ((65 <=? n) && (n <=? 90))%nat.

(** [strings.ToLower] on ASCII letters; other bytes are left as they are. *)
Definition lower (c : ascii) : ascii :=
  if is_upper c then ascii_of_nat (nat_of_ascii c + 32) else c.

Fixpoint ToLower (s : string) : string :=
  match s with
  | EmptyString => EmptyString
  | String c r => String (lower c) (ToLower r)
  end.

(** The ASCII white space: tab, line feed, vertical tab, form feed,
    carriage return, space. *)
Definition is_space (c : ascii) : bool :=
  let n := nat_of_ascii c in (((9 <=? n) && (n <=? 13)) || (n =? 32))%nat.

Fixpoint trim_left (s : string) : string :=
  match s with
  | EmptyString => EmptyString
  | String c r => if is_space c then trim_left r else s
  end.

(** Drops the white space at the end: [None] stands for a string that
    is white space only. *)
Fixpoint trim_right (s : string) : option string :=
  match s with
  | EmptyString => None
  | String c r =>
      match trim_right r with
      | Some r' => Some (String c r')
      | None => if is_space c then None else Some (String c EmptyString)
      end
  end.

Definition TrimSpace (s : string) : string :=
  default EmptyString (trim_right (trim_left s)).

(** [strings.Split(s, ",")] for a one-byte separator: never empty. *)
Fixpoint Split (s : string) (sep : ascii) : list string :=
  match s with
  | EmptyString => [EmptyString]
  | String c r =>
      if Ascii.eqb c sep then EmptyString :: Split r sep
      else match Split r sep with
           | hd :: tl => String c hd :: tl
           | [] => [String c EmptyString]
           end
  end.

(** [strings.Contains(s, substr)]. *)
Fixpoint Contains (s substr : string) : bool :=
  String.prefix substr s
  || match s with
     | EmptyString => false
     | String _ r => Contains r substr
     end.
End strings.

Module strconv.
Definition digit (c : ascii) : option Z :=
  let n := Z.of_nat (nat_of_ascii c) in
  if (48 <=? n) && (n <=? 57) then Some (n - 48) else None.

Fixpoint digits (s : string) (acc : Z) : option Z :=
  match s with
  | EmptyString => Some acc
  | String c r => d ← digit c; digits r (10 * acc + d)
  end.

(** [strconv.ParseUint(s, 10, bitSize)]: [None] when it returns an error
    (empty string, a byte that is not a digit, value out of range). *)
Definition ParseUint (s : string) (bitSize : Z) : option Z :=
  match s with
  | EmptyString => None
  | _ => v ← digits s 0; if v <? 2 ^ bitSize then Some v else None
  end.

(** [strconv.ParseInt(s, 10, bitSize)]: an optional sign, then digits. *)
Definition ParseInt (s : string) (bitSize : Z) : option Z :=
  match s with
  | EmptyString => None
  | String c r =>
      let '(neg, body) :=
        if Ascii.eqb c "+" then (false, r)
        else if Ascii.eqb c "-" then (true, r)
        else (false, s) in
      un ← ParseUint body 64;
      let cutoff := 2 ^ (bitSize - 1) in
      if negb neg && (cutoff <=? un) then None
      else if neg && (cutoff <? un) then None
      else Some (if neg then - un else un)
  end.

(** A plain decimal literal: optional sign, digits, optional fraction.
    The result [(m, k)] stands for [m / 10^k]. *)
Definition decimal (s : string) : option (Z * nat) :=
  let '(neg, body) :=
    match s with
    | String c r =>
        if Ascii.eqb c "+" then (false, r)
        else if Ascii.eqb c "-" then (true, r)
        else (false, s)
    | EmptyString => (false, s)
    end in
  match strings.Split body "." with
  | [i] => m ← ParseUint i 64; Some (if neg then - m else m, 0%nat)
  | [i; f] =>
      m ← ParseUint (i +:+ f) 64;
      if (String.length i =? 0)%nat && (String.length f =? 0)%nat then None
      else Some (if neg then - m else m, String.length f)
  | _ => None
  end.
End strconv.

(** [csv.Reader]: the file is the sequence of its records, [None] standing
    for a record that is not well formed; the end of the sequence is
    [io.EOF].  [Read], on the next record, returns it or an error: on a
    malformed record, and on a record whose number of fields is not
    [FieldsPerRecord] (which [Read] sets from the first record when it is
    0).  The second component is the reader's [FieldsPerRecord] afterwards. *)
Module csv.
Inductive result : Type :=
| Error
| Record_ (record : list string).

Definition Read (FieldsPerRecord : Z) (next : option (list string)) : result * Z :=
  match next with
  | None => (Error, FieldsPerRecord)
  | Some record =>
      let n := Z.of_nat (length record) in
      if FieldsPerRecord =? 0 then (Record_ record, n)
      else if (0 <? FieldsPerRecord) && negb (n =? FieldsPerRecord)
      then (Error, FieldsPerRecord)
      else (Record_ record, FieldsPerRecord)
  end.
End csv.

(** ** Program lbs-import *)

Module lbs_import.
Section Program.
Context `{GoFloat64}.

(** The command-line flags. *)
Record Flags : Type := {
  mongourl : string;
  radiofilter : string;
  countryfilter : string;
  minSamples : Z            (* int64 *)
}.

(** What the run meets outside of the store: whether the URL parses and
    the server answers, and the records of each file that can be opened. *)
Record World : Type := {
  ParseURL_ok : string -> bool;
  Dial_ok : bool;
  Open : string -> option (list (option (list string)))
}.

(** The [return] statement (or the end of [main]) that ends the run. *)
Inductive exit : Type :=
| ExitUsage
| ExitParseURL
| ExitDial
| ExitIndex
| ExitOpen
| ExitCSV
| ExitNoRecords
| ExitDelete
| ExitBulk
| ExitCount
| ExitDone (total : Z).

Definition uint64 (n : Z) : Z := n mod 2 ^ 64.

(** [filterRadio]: one entry per element of the comma-separated flag. *)
Definition filterRadio (fl : Flags) : gmap string bool :=
  foldl (fun m radio => <[strings.ToLower (strings.TrimSpace radio) := true]> m)
        ∅ (strings.Split (radiofilter fl) ",").

(** [filterCountry]: the elements that do not parse are skipped. *)
Definition filterCountry (fl : Flags) : gmap Z bool :=
  foldl (fun m country =>
           match strconv.ParseUint country 16 with
           | None => m
           | Some mcc => <[mcc := true]> m
           end)
        ∅ (strings.Split (countryfilter fl) ",").

(** [m[k]] on a [map[K]bool]: false when there is no entry. *)
Definition lookup_bool `{Countable K} (m : gmap K bool) (k : K) : bool :=
  default false (m !! k).

(** The body of the reading loop after the header test: [Return None] is
    [continue], [Return (Some (key, data))] the staged upsert. *)
Definition row (fl : Flags) (record : list string) : outcome (option (Key * Data)) :=
  r0 ← index record 0;
  let radio := strings.ToLower r0 in
  if (0 <? Z.of_nat (size (filterRadio fl))) && negb (lookup_bool (filterRadio fl) radio)
  then Return None else
  r9 ← index record 9;
  match strconv.ParseInt r9 32 with None => Return None | Some samples =>
  if samples <? minSamples fl then Return None else
  r1 ← index record 1;
  match strconv.ParseUint r1 16 with None => Return None | Some mcc =>
  if (0 <? Z.of_nat (size (filterCountry fl))) && negb (lookup_bool (filterCountry fl) mcc)
  then Return None else
  r2 ← index record 2;
  match strconv.ParseUint r2 16 with None => Return None | Some mnc =>
  r3 ← index record 3;
  match strconv.ParseUint r3 16 with None => Return None | Some area =>
  r4 ← index record 4;
  match strconv.ParseUint r4 32 with None => Return None | Some cell =>
  r6 ← index record 6;
  match ParseFloat r6 with None => Return None | Some lon =>
  r7 ← index record 7;
  match ParseFloat r7 with None => Return None | Some lat =>
  r8 ← index record 8;
  match ParseFloat r8 with None => Return None | Some distance =>
  let key := {| RadioType := radio; MobileCountryCode := mcc;
                MobileNetworkCode := mnc; LocationAreaCode := area;
                CellId := cell |} in
  let data := {| Location := geo.NewPoint lon lat; Accuracy := distance |} in
  Return (Some (key, data))
  end end end end end end end end.

(** How the reading loop is left, with the upserts staged by then: at the
    end of the file, on an error of the reader, or by a panic. *)
Inductive loop_end : Type :=
| LoopEOF (counter lines : Z) (bulk : list (Key * Data))
| LoopCSVError (bulk : list (Key * Data))
| LoopPanic (p : panic) (bulk : list (Key * Data)).

Definition staged (e : loop_end) : list (Key * Data) :=
  match e with
  | LoopEOF _ _ bulk | LoopCSVError bulk | LoopPanic _ bulk => bulk
  end.

(** The reading loop: [file] is what is left to read. *)
Fixpoint read_loop (fl : Flags) (file : list (option (list string)))
    (FieldsPerRecord counter lines : Z) (bulk : list (Key * Data)) : loop_end :=
  match file with
  | [] => LoopEOF counter lines bulk
  | next :: file =>
      match csv.Read FieldsPerRecord next with
      | (csv.Error, _) => LoopCSVError bulk
      | (csv.Record_ record, FieldsPerRecord) =>
          let lines := uint64 (lines + 1) in
          if lines =? 1
          then read_loop fl file (Z.of_nat (length record)) counter lines bulk
          else match row fl record with
               | Panic p => LoopPanic p bulk
               | Return None => read_loop fl file FieldsPerRecord counter lines bulk
               | Return (Some upsert) =>
                   read_loop fl file FieldsPerRecord (uint64 (counter + 1)) lines
                             (bulk ++ [upsert])
               end
      end
  end.

(** [main] up to the reading loop: the run ends there, or goes on with the
    name and the records of the file.  [args] are the arguments left after
    the flags, [s] is the collection [lbs.CollectionName] of the database
    of the URL. *)
Definition prologue (fl : Flags) (args : list string) (w : World) (s : mgo.Session)
  : exit * mgo.Session + string * list (option (list string)) * mgo.Session :=
  if negb (length args =? 1)%nat then inl (ExitUsage, s) else
  let filename := default "" (args !! 0%nat) in
  if negb (ParseURL_ok w (mongourl fl)) then inl (ExitParseURL, s) else
  if negb (Dial_ok w) then inl (ExitDial, s) else
  match mgo.EnsureIndex s with
  | (Some _, s) => inl (ExitIndex, s)
  | (None, s) =>
      match Open w filename with
      | None => inl (ExitOpen, s)
      | Some file => inr (filename, file, s)
      end
  end.

(** [main] after the reading loop. *)
Definition commit (filename : string) (counter : Z) (bulk : list (Key * Data))
    (s : mgo.Session) : exit * mgo.Session :=
  if counter =? 0 then (ExitNoRecords, s) else
  let purge :=
    if negb (strings.Contains filename "diff")
    then let '((_, err), s) := mgo.RemoveAll s in (err, s)
    else (None, s) in
  match purge with
  | (Some _, s) => (ExitDelete, s)
  | (None, s) =>
      match mgo.BulkRun bulk s with
      | (Some _, s) => (ExitBulk, s)
      | (None, s) =>
          match mgo.Count s with
          | ((_, Some _), s) => (ExitCount, s)
          | ((total, None), s) => (ExitDone total, s)
          end
      end
  end.

Definition main (fl : Flags) (args : list string) (w : World) (s : mgo.Session)
  : outcome exit * mgo.Session :=
  match prologue fl args w s with
  | inl (e, s) => (Return e, s)
  | inr (filename, file, s) =>
      match read_loop fl file 0 0 0 [] with
      | LoopPanic p _ => (Panic p, s)
      | LoopCSVError _ => (Return ExitCSV, s)
      | LoopEOF counter lines bulk =>
          let '(e, s) := commit filename counter bulk s in (Return e, s)
      end
  end.

(** The rows that the run accepts: the upserts staged when the reading
    loop is left, none when the run does not get to the loop. *)
Definition accepted (fl : Flags) (args : list string) (w : World) (s : mgo.Session)
  : list (Key * Data) :=
  match prologue fl args w s with
  | inl _ => []
  | inr (_, file, _) => staged (read_loop fl file 0 0 0 [])
  end.

(** A full import: the name of the file does not contain "diff". *)
Definition full_mode (args : list string) : bool :=
  negb (strings.Contains (default "" (args !! 0%nat)) "diff").
End Program.
End lbs_import.

(** ** The two readings of float64 *)

(** *** Exact arithmetic: the reals

    [Pow] is the integer power for an integer exponent and the real power
    of a positive base otherwise; where Go yields a NaN or an infinity the
    functions have the values of the Standard Library (a quotient by 0 and
    the square root of a negative number are 0). *)
Definition Rpow (x y : R) : R :=
  if Req_dec_T y (IZR (Int_part y)) then powerRZ x (Int_part y)
  else if Rlt_dec 0 x then Rpower x y
  else 0%R.

(** [ParseFloat] on plain decimal literals. *)
Definition Rparse (s : string) : option R :=
  d ← strconv.decimal s; Some (IZR d.1 / 10 ^ d.2)%R.

Definition Real64 : GoFloat64 := {|
  float64 := R;
  of_int := IZR;
  Pi_180 := (PI / 180)%R;
  fadd := Rplus;
  fsub := Rminus;
  fmul := Rmult;
  fdiv := Rdiv;
  fgt := fun x y => if Rgt_dec x y then true else false;
  Sin := sin;
  Cos := cos;
  Asin := asin;
  Sqrt := sqrt;
  Min := Rmin;
  Pow := Rpow;
  ParseFloat := Rparse
|}.

(** *** IEEE 754 binary64

    The arithmetic, the comparison and the square root are the primitive
    ones.  [math.Sin], [math.Cos], [math.Asin], [math.Pow] and
    [strconv.ParseFloat] have no primitive counterpart and are given. *)
Record GoMath : Type := {
  math_Sin : PrimFloat.float -> PrimFloat.float;
  math_Cos : PrimFloat.float -> PrimFloat.float;
  math_Asin : PrimFloat.float -> PrimFloat.float;
  math_Pow : PrimFloat.float -> PrimFloat.float -> PrimFloat.float;
  strconv_ParseFloat : string -> option PrimFloat.float
}.

Definition float_of_Z (z : Z) : PrimFloat.float :=
  if z <? 0 then PrimFloat.opp (PrimFloat.of_uint63 (Uint63.of_Z (- z)))
  else PrimFloat.of_uint63 (Uint63.of_Z z).

(** [math.Min], with its special cases in the order of the library:
    a negative infinity, a NaN, two zeros. *)
Definition float_min (x y : PrimFloat.float) : PrimFloat.float :=
  if (PrimFloat.is_infinity x && PrimFloat.ltb x PrimFloat.zero)
     || (PrimFloat.is_infinity y && PrimFloat.ltb y PrimFloat.zero)
  then PrimFloat.neg_infinity
  else if PrimFloat.is_nan x || PrimFloat.is_nan y then PrimFloat.nan
  else if PrimFloat.is_zero x && PrimFloat.eqb x y
  then (if PrimFloat.get_sign x then x else y)
  else if PrimFloat.ltb x y then x else y.

Section Binary.
Import PrimFloat.

Definition Binary64 (lib : GoMath) : GoFloat64 := {|
  float64 := PrimFloat.float;
  of_int := float_of_Z;
  Pi_180 := 0x1.1df46a2529d39p-6%float;
  fadd := PrimFloat.add;
  fsub := PrimFloat.sub;
  fmul := PrimFloat.mul;
  fdiv := PrimFloat.div;
  fgt := fun x y => PrimFloat.ltb y x;
  Sin := math_Sin lib;
  Cos := math_Cos lib;
  Asin := math_Asin lib;
  Sqrt := PrimFloat.sqrt;
  Min := float_min;
  Pow := math_Pow lib;
  ParseFloat := strconv_ParseFloat lib
|}.
End Binary.

(** ** The specification's formulas, over the reals *)

Section SpecFormulas.
Local Existing Instance Real64.
Local Open Scope R_scope.

Definition radians (deg : R) : R := deg * PI / 180.

(** The haversine distance of the specification, for two points given in
    degrees, on the sphere of radius 6,378,137 m. *)
Definition haversine (lat1 lon1 lat2 lon2 : R) : R :=
  let dlat := radians lat2 - radians lat1 in
  let dlon := radians lon2 - radians lon1 in
  let a := (sin (dlat / 2))² + cos (radians lat1) * cos (radians lat2) * (sin (dlon / 2))² in
  let c := 2 * asin (Rmin 1 (sqrt a)) in
  6378137 * c.

(** The arithmetic mean of a list of reals. *)
Definition mean (l : list R) : R := foldr Rplus 0 l / INR (length l).

(** The maximum of the non-empty list [x :: l]. *)
Definition maximum (x : R) (l : list R) : R := foldr Rmax x l.

(** The response with the given latitude, longitude and accuracy radius. *)
Definition response (lat lng accuracy : R) : locator.Response :=
  {| locator.Location := {| locator.Lat := lat; locator.Lng := lng |};
     locator.Accuracy := accuracy |}.

Definition lon_of (c : Data) : R := geo.Longitude (Location c).
Definition lat_of (c : Data) : R := geo.Latitude (Location c).

(** The radius that a matched record asks for around the point
    [(lat, lon)]: its haversine distance to the point plus its own
    accuracy radius. *)
Definition radius (lat lon : R) (c : Data) : R :=
  haversine (lat_of c) (lon_of c) lat lon + Accuracy c.
End SpecFormulas.

(** ** Notions used to state further properties *)

(** The descriptor of the tower of key [k], and the request that observes
    that one tower under the radio type of [k], with no home codes. *)
Definition tower_of (k : Key) : locator.CellTower :=
  {| locator.MobileCountryCode := MobileCountryCode k;
     locator.MobileNetworkCode := MobileNetworkCode k;
     locator.LocationAreaCode := LocationAreaCode k;
     locator.CellId := CellId k;
     locator.SignalStrength := 0; locator.Age := 0; locator.TimingAdvance := 0 |}.

Definition request_of (k : Key) : locator.Request :=
  {| locator.HomeMobileCountryCode := 0; locator.HomeMobileNetworkCode := 0;
     locator.RadioType := RadioType k;
     locator.CellTowers := [Some (tower_of k)];
     locator.WifiAccessPoints := [] |}.

(** The query that GetCells builds for [request_of k]. *)
Definition query_of (k : Key) : mgo.Search :=
  {| mgo.s_radio := RadioType k;
     mgo.s_mcc := MobileCountryCode k;
     mgo.s_mnc := MobileNetworkCode k;
     mgo.s_or := [(LocationAreaCode k, CellId k)] |}.

(** Two entries of [CellTowers] that name the same cell: both nil, or the
    same location area code and cell identifier. *)
Definition same_cell (p p' : option locator.CellTower) : Prop :=
  match p, p' with
  | None, None => True
  | Some c, Some c' =>
      locator.LocationAreaCode c = locator.LocationAreaCode c'
      /\ locator.CellId c = locator.CellId c'
  | _, _ => False
  end.

(** A record that the reader refuses: a malformed one, or one whose number
    of fields is not [fpr]. *)
Definition refused (fpr : Z) (next : option (list string)) : Prop :=
  match next with
  | None => True
  | Some record => Z.of_nat (length record) <> fpr
  end.

(** A key as the import builds it: a lower-case radio tag, and codes within
    the widths of their types. *)
Definition valid_key (k : Key) : Prop :=
  strings.ToLower (RadioType k) = RadioType k
  /\ 0 <= MobileCountryCode k < 2 ^ 16
  /\ 0 <= MobileNetworkCode k < 2 ^ 16
  /\ 0 <= LocationAreaCode k < 2 ^ 16
  /\ 0 <= CellId k < 2 ^ 32.

Definition valid_store `{GoFloat64} (m : gmap Key Data) : Prop :=
  forall k d, m !! k = Some d -> valid_key k.

(** ** Sample data

    The first tower of the repository's test, the record that the
    specification's round-trip example stores for it, and a few stores. *)

Module sample.
Local Existing Instance Real64.

Definition tower (mnc lac cell : Z) : locator.CellTower :=
  {| locator.MobileCountryCode := 250; locator.MobileNetworkCode := mnc;
     locator.LocationAreaCode := lac; locator.CellId := cell;
     locator.SignalStrength := -78; locator.Age := 0;
     locator.TimingAdvance := 0 |}.

Definition request (towers : list (option locator.CellTower))
    (wifi : list locator.WifiAccessPoint) : locator.Request :=
  {| locator.HomeMobileCountryCode := 0; locator.HomeMobileNetworkCode := 0;
     locator.RadioType := ""; locator.CellTowers := towers;
     locator.WifiAccessPoints := wifi |}.

Definition access_point : locator.WifiAccessPoint :=
  {| locator.MacAddress := "01:23:45:67:89:ab"; locator.WifiSignalStrength := -60 |}.

Definition key : Key :=
  {| RadioType := "gsm"; MobileCountryCode := 250; MobileNetworkCode := 2;
     LocationAreaCode := 7743; CellId := 22517 |}.

Definition data (accuracy : R) : Data :=
  {| Location := geo.NewPoint (376 / 10)%R (557 / 10)%R; Accuracy := accuracy |}.

Definition store (docs : gmap Key Data) (fault : nat -> option (nat * error))
  : DB :=
  {| name := "geotrace";
     session := {| mgo.docs := docs; mgo.trace := []; mgo.fault := fault |} |}.

Definition healthy : nat -> option (nat * error) := fun _ => None.

Definition down : nat -> option (nat * error) :=
  fun _ => Some (0%nat, StoreError "no reachable servers").

(** An import: the flags' defaults, a file of one header and one row, and a
    collection that holds a record of an earlier import. *)
Definition flags : lbs_import.Flags :=
  {| lbs_import.mongourl := "mongodb://localhost/geotrace";
     lbs_import.radiofilter := "gsm";
     lbs_import.countryfilter := "250";
     lbs_import.minSamples := 0 |}.

Definition header : list string :=
  ["radio"; "mcc"; "net"; "area"; "cell"; "unit"; "lon"; "lat"; "range";
   "samples"; "changeable"; "created"; "updated"; "averageSignal"].

Definition row (radio : string) : list string :=
  [radio; "250"; "2"; "7743"; "22517"; "0"; "37.6"; "55.7"; "50";
   "10"; "1"; "1459813819"; "1467549708"; "0"].

Definition world (file : list (option (list string))) : lbs_import.World :=
  {| lbs_import.ParseURL_ok := fun _ => true;
     lbs_import.Dial_ok := true;
     lbs_import.Open := fun name =>
       if String.eqb name "cell_towers.csv" then Some file else None |}.

Definition old_key : Key :=
  {| RadioType := "gsm"; MobileCountryCode := 250; MobileNetworkCode := 2;
     LocationAreaCode := 7743; CellId := 39696 |}.

Definition collection : mgo.Session :=
  {| mgo.docs := {[old_key := data 100]}; mgo.trace := []; mgo.fault := healthy |}.

(** The data that the import reads off [row]: the decimal literals of its
    columns 6, 7 and 8. *)
Definition imported : Data :=
  {| Location := geo.NewPoint (376 / 10 ^ 1)%R (557 / 10 ^ 1)%R;
     Accuracy := (50 / 10 ^ 0)%R |}.

(** A differential file of the same content. *)
Definition diff_world (file : list (option (list string))) : lbs_import.World :=
  {| lbs_import.ParseURL_ok := fun _ => true;
     lbs_import.Dial_ok := true;
     lbs_import.Open := fun name =>
       if String.eqb name "cell_towers.diff.csv" then Some file else None |}.

Definition empty_collection : mgo.Session :=
  {| mgo.docs := ∅; mgo.trace := []; mgo.fault := healthy |}.

Definition file : list (option (list string)) := [Some header; Some (row "GSM")].
End sample.

(** * Properties *)

(** ** The request guard and the query construction *)

Section Guard.
Context `{GoFloat64}.

(** C1: a request that names no cell tower and no wifi access point makes
    GetCells and Get return ErrEmptyRequest, and leaves the session as it
    was: nothing is added to the trace of store operations. *)
Theorem empty_request_rejected (db : DB) (req : locator.Request) :
  locator.CellTowers req = [] ->
  locator.WifiAccessPoints req = [] ->
  GetCells db req = (Return ([], Some ErrEmptyRequest), db)
  /\ Get db req = (Return (None, Some ErrEmptyRequest), db).
Proof.
  intros Ht Hw. unfold Get, GetCells. rewrite Ht, Hw. simpl. split; reflexivity.
Qed.

(** C4: a request with no cell tower, some wifi access point and home
    country code 0 passes the guard of GetCells and then reads
    [CellTowers[0]] of the empty slice: GetCells, and Get through it, end
    in an index-out-of-range panic, before any store operation. *)
Theorem wifi_only_request_panics (db : DB) (req : locator.Request) :
  locator.CellTowers req = [] ->
  locator.WifiAccessPoints req <> [] ->
  locator.HomeMobileCountryCode req = 0 ->
  GetCells db req = (Panic (IndexOutOfRange 0 0), db)
  /\ Get db req = (Panic (IndexOutOfRange 0 0), db).
Proof.
  intros Ht Hw Hmcc. unfold Get, GetCells, search. rewrite Ht, Hmcc.
  destruct (locator.WifiAccessPoints req) as [|ap aps]; [contradiction|].
  simpl. split; reflexivity.
Qed.
End Guard.

(** The guard on the sample data: the empty request. *)
Lemma empty_request_rejected_witness :
  let db := sample.store ∅ sample.healthy in
  let req := sample.request [] [] in
  GetCells db req = (Return ([], Some ErrEmptyRequest), db)
  /\ Get db req = (Return (None, Some ErrEmptyRequest), db).
Proof.
  intros db req. apply (empty_request_rejected db req); reflexivity.
Defined.

(** The panic on the sample data: one wifi access point, no tower. *)
Lemma wifi_only_request_panics_witness :
  let db := sample.store ∅ sample.healthy in
  let req := sample.request [] [sample.access_point] in
  GetCells db req = (Panic (IndexOutOfRange 0 0), db)
  /\ Get db req = (Panic (IndexOutOfRange 0 0), db).
Proof.
  intros db req.
  apply (wifi_only_request_panics db req); [reflexivity | discriminate | reflexivity].
Defined.

(** ** From the matched cells to the answer *)

Section Answer.
Context `{GoFloat64}.
Local Open Scope f64_scope.

(** When GetCells returns cells and no error, Get answers with their
    average, and with the same session. *)
Lemma Get_average (db db' : DB) (req : locator.Request) (cells : list Data) :
  GetCells db req = (Return (cells, None), db') ->
  Get db req = (Return (Some (average cells), None), db').
Proof. intros Hc. unfold Get. rewrite Hc. reflexivity. Qed.

(** When GetCells returns an error, Get returns that error and no answer. *)
Lemma Get_error (db db' : DB) (req : locator.Request) (cells : list Data) (e : error) :
  GetCells db req = (Return (cells, Some e), db') ->
  Get db req = (Return (None, Some e), db').
Proof. intros Hc. unfold Get. rewrite Hc. reflexivity. Qed.

(** A request that is not empty and whose query can be built is answered by
    the store's [Find]. *)
Lemma GetCells_Find (db : DB) (req : locator.Request) (q : mgo.Search) :
  locator.CellTowers req <> [] \/ locator.WifiAccessPoints req <> [] ->
  search req = Return q ->
  GetCells db req =
    (Return (mgo.Find q (session db)).1, with_session db (mgo.Find q (session db)).2).
Proof.
  intros Hne Hq. unfold GetCells. rewrite Hq.
  destruct (locator.CellTowers req) as [|t ts], (locator.WifiAccessPoints req) as [|a aps];
    simpl; try (destruct (mgo.Find q (session db)) as [res s]; reflexivity).
  destruct Hne as [Hne|Hne]; contradiction.
Qed.

(** C3: when GetCells succeeds with no cell at all, Get returns no error (and
    so never ErrNotFound): the answer is the point whose coordinates are
    the quotient of the zero sum by the zero count, with accuracy 0.  In
    binary64 that quotient is the NaN. *)
Theorem empty_match_set_answered (db db' : DB) (req : locator.Request) :
  GetCells db req = (Return ([], None), db') ->
  Get db req =
    (Return (Some {| locator.Location :=
                       {| locator.Lat := of_int 0 / of_int (Z.of_nat 0);
                          locator.Lng := of_int 0 / of_int (Z.of_nat 0) |};
                     locator.Accuracy := of_int 0 |}, None), db')
  /\ (forall lib : GoMath,
        @fdiv (Binary64 lib) (@of_int (Binary64 lib) 0) (@of_int (Binary64 lib) (Z.of_nat 0))
        = PrimFloat.nan).
Proof.
  intros Hc. split; [|reflexivity].
  rewrite (Get_average _ _ _ _ Hc). reflexivity.
Qed.

(** C10, as the code has it: when the store operation fails with an error,
    GetCells returns that very error (with the cells decoded before the
    failure) and Get returns it with no answer; Records returns a number
    only, the 0 that [Count] gives on a failure, and the caller of Records
    does not see the error. *)
Theorem store_failure_returned (db : DB) (req : locator.Request)
    (q : mgo.Search) (k : nat) (e : error) :
  locator.CellTowers req <> [] \/ locator.WifiAccessPoints req <> [] ->
  search req = Return q ->
  mgo.next_fault (session db) = Some (k, e) ->
  (exists cells, (GetCells db req).1 = Return (cells, Some e))
  /\ (Get db req).1 = Return (None, Some e)
  /\ (Records db).1 = 0.
Proof.
  intros Hne Hq Hf.
  pose proof (GetCells_Find db req q Hne Hq) as Hg.
  unfold mgo.Find in Hg. rewrite Hf in Hg. simpl in Hg.
  split; [|split].
  - rewrite Hg. eexists. reflexivity.
  - rewrite (Get_error _ _ _ _ _ Hg). reflexivity.
  - unfold Records, mgo.Count. rewrite Hf. reflexivity.
Qed.
End Answer.

(** An empty match set on the sample data: the store holds nothing. *)
Lemma empty_match_set_answered_witness :
  let db := sample.store ∅ sample.healthy in
  let req := sample.request [Some (sample.tower 2 7743 22517)] [] in
  Get db req
  = (Return (Some (response (0 / 0) (0 / 0) 0), None), (GetCells db req).2)
  /\ (forall lib : GoMath,
        @fdiv (Binary64 lib) (@of_int (Binary64 lib) 0) (@of_int (Binary64 lib) (Z.of_nat 0))
        = PrimFloat.nan).
Proof.
  intros db req.
  apply (empty_match_set_answered db (GetCells db req).2 req). reflexivity.
Defined.

(** A failing store on the sample data. *)
Lemma store_failure_returned_witness :
  let db := sample.store ∅ sample.down in
  let req := sample.request [Some (sample.tower 2 7743 22517)] [] in
  (exists cells, (GetCells db req).1 = Return (cells, Some (StoreError "no reachable servers")))
  /\ (Get db req).1 = Return (None, Some (StoreError "no reachable servers"))
  /\ (Records db).1 = 0.
Proof.
  intros db req.
  apply (store_failure_returned db req
           {| mgo.s_radio := "gsm"; mgo.s_mcc := 250; mgo.s_mnc := 2;
              mgo.s_or := [(7743, 22517)] |} 0%nat);
    [left; discriminate | reflexivity | reflexivity].
Defined.

(** C10 as stated fails for Records: with the store down it returns what it
    returns for an empty collection in a healthy store, so the failure of
    [Count] does not reach its caller. *)
Lemma Records_hides_store_failure :
  (mgo.Count (session (sample.store ∅ sample.down))).1
    = (0, Some (StoreError "no reachable servers"))
  /\ (Records (sample.store ∅ sample.down)).1
     = (Records (sample.store ∅ sample.healthy)).1.
Proof. split; reflexivity. Qed.

(** ** The answer in exact arithmetic *)

Section ExactAnswer.
Local Existing Instance Real64.
Local Open Scope R_scope.

Lemma sum_step_foldl (cells : list Data) (x y : R) :
  foldl sum_step (x, y) cells
  = (x + foldr Rplus 0 (map lon_of cells), y + foldr Rplus 0 (map lat_of cells)).
Proof.
  revert x y. induction cells as [|c cells IH]; intros x y; simpl.
  - f_equal; lra.
  - unfold sum_step at 2. rewrite IH. unfold lon_of, lat_of. simpl. f_equal; lra.
Qed.

Lemma Int_part_2 : Int_part 2 = 2%Z.
Proof. symmetry. apply Int_part_spec. simpl. lra. Qed.

Lemma Rpow_2 (x : R) : Rpow x 2 = x².
Proof.
  unfold Rpow. rewrite Int_part_2.
  destruct (Req_dec_T 2 2) as [_|Hne]; [|contradiction].
  unfold Rsqr. simpl. lra.
Qed.

Lemma sin_sqr_opp (x : R) : (sin (- x))² = (sin x)².
Proof. rewrite sin_neg. symmetry. apply Rsqr_neg. Qed.

(** The distance term of the second loop is the haversine distance of the
    specification, to which the loop adds the record's accuracy. *)
Lemma dist_radius (lon lat : R) (c : Data) : dist lon lat c = radius lat lon c.
Proof.
  unfold dist, radius, haversine, radians, lat_of, lon_of. simpl.
  rewrite !Rpow_2.
  set (la := geo.Latitude (Location c)). set (lo := geo.Longitude (Location c)).
  replace ((lat * PI / 180 - la * PI / 180) / 2) with (- (PI / 180 * (la - lat) / 2)) by lra.
  replace ((lon * PI / 180 - lo * PI / 180) / 2) with (- (PI / 180 * (lo - lon) / 2)) by lra.
  rewrite !sin_sqr_opp.
  replace (PI / 180 * lat) with (lat * PI / 180) by lra.
  replace (PI / 180 * la) with (la * PI / 180) by lra.
  rewrite (Rmult_comm (cos (lat * PI / 180)) (cos (la * PI / 180))).
  change (IZR (2 * EARTH_RADIUS)) with 12756274. lra.
Qed.



Lemma haversine_same (lat lon : R) : haversine lat lon lat lon = 0.
Proof.
  unfold haversine.
  replace ((radians lat - radians lat) / 2) with 0 by lra.
  replace ((radians lon - radians lon) / 2) with 0 by lra.
  rewrite sin_0. unfold Rsqr.
  replace (0 * 0 + cos (radians lat) * cos (radians lat) * (0 * 0)) with 0 by lra.
  rewrite sqrt_0, Rmin_right by lra. rewrite asin_0. lra.
Qed.

Lemma acc_step_Rmax (lon lat a : R) (c : Data) :
  acc_step lon lat a c = Rmax a (radius lat lon c).
Proof.
  unfold acc_step. rewrite dist_radius. simpl.
  destruct (Rgt_dec (radius lat lon c) a) as [Hgt|Hngt].
  - rewrite Rmax_right; lra.
  - rewrite Rmax_left; lra.
Qed.

Lemma maximum_Rmax (a x : R) (l : list R) :
  maximum (Rmax a x) l = Rmax a (maximum x l).
Proof.
  unfold maximum. induction l as [|y l IH]; simpl; [reflexivity|].
  rewrite IH. rewrite !Rmax_assoc. f_equal. apply Rmax_comm.
Qed.

Lemma acc_step_foldl (lon lat a : R) (cells : list Data) :
  foldl (acc_step lon lat) a cells = maximum a (map (radius lat lon) cells).
Proof.
  revert a. induction cells as [|c cells IH]; intros a; simpl; [reflexivity|].
  rewrite IH, acc_step_Rmax, (Rmax_comm a), maximum_Rmax. reflexivity.
Qed.

(** What [average] computes, in the specification's terms: the mean point,
    and the larger of 0 and the maximum of the radii. *)
Lemma average_spec (c : Data) (cells : list Data) :
  let lat := mean (map lat_of (c :: cells)) in
  let lon := mean (map lon_of (c :: cells)) in
  average (c :: cells)
  = response lat lon
      (Rmax 0 (maximum (radius lat lon c) (map (radius lat lon) cells))).
Proof.
  intros lat lon. unfold average.
  rewrite sum_step_foldl.
  assert (Hlat : (0 + foldr Rplus 0 (map lat_of (c :: cells)))
                 / IZR (Z.of_nat (length (c :: cells))) = lat).
  { unfold lat, mean. rewrite length_map, INR_IZR_INZ. f_equal. lra. }
  assert (Hlon : (0 + foldr Rplus 0 (map lon_of (c :: cells)))
                 / IZR (Z.of_nat (length (c :: cells))) = lon).
  { unfold lon, mean. rewrite length_map, INR_IZR_INZ. f_equal. lra. }
  cbv beta iota zeta. cbn [fdiv fadd of_int Real64].
  rewrite Hlat, Hlon.
  rewrite acc_step_foldl. cbn [map]. unfold response.
  change (maximum 0 (radius lat lon c :: map (radius lat lon) cells))
    with (Rmax (radius lat lon c) (maximum 0 (map (radius lat lon) cells))).
  rewrite <- maximum_Rmax, (Rmax_comm (radius lat lon c)), maximum_Rmax.
  reflexivity.
Qed.
Lemma maximum_ge (a x : R) (l : list R) : In x (a :: l) -> x <= maximum a l.
Proof.
  unfold maximum. induction l as [|y l IH]; simpl.
  - intros [->|[]]. lra.
  - intros [->|[->|Hin]].
    + eapply Rle_trans; [apply IH; left; reflexivity | apply Rmax_r].
    + apply Rmax_l.
    + eapply Rle_trans; [apply IH; right; exact Hin | apply Rmax_r].
Qed.


Lemma mean_single (x : R) : mean [x] = x.
Proof. unfold mean. simpl. lra. Qed.

(** The answer for a single matched record. *)
Lemma average_single (d : Data) :
  average [d] = response (lat_of d) (lon_of d) (Rmax 0 (Accuracy d)).
Proof.
  rewrite average_spec. cbn [map]. rewrite !mean_single.
  unfold maximum, radius. cbn [foldr]. rewrite haversine_same.
  f_equal. f_equal. lra.
Qed.



End ExactAnswer.






(** ** The order of the observed towers *)

Section TowerOrder.
Context `{GoFloat64}.

Lemma cellsData_nil_entry (towers : list (option locator.CellTower)) :
  In None towers -> cellsData towers = Panic NilDereference.
Proof.
  induction towers as [|p towers IH]; intros Hin; [destruct Hin|].
  destruct p as [cell|]; [|reflexivity].
  destruct Hin as [Heq|Hin]; [discriminate|].
  simpl. rewrite (IH Hin). reflexivity.
Qed.

Lemma cellsData_no_nil (towers : list (option locator.CellTower)) :
  ~ In None towers -> cellsData towers = Return (omap (fmap alt_of) towers).
Proof.
  induction towers as [|p towers IH]; intros Hnin; [reflexivity|].
  destruct p as [cell|]; [|exfalso; apply Hnin; left; reflexivity].
  simpl. rewrite IH; [reflexivity|]. intros Hin. apply Hnin. right. exact Hin.
Qed.

(** With a nil entry among its towers, a request has no query: building it
    panics on the nil pointer, wherever the entry stands. *)
Lemma search_nil_entry (req : locator.Request) :
  In None (locator.CellTowers req) -> search req = Panic NilDereference.
Proof.
  intros Hin. unfold search.
  pose proof (cellsData_nil_entry _ Hin) as Hcd.
  destruct (locator.CellTowers req) as [|p towers]; [destruct Hin|].
  destruct p as [cell|].
  - destruct (locator.HomeMobileCountryCode req =? 0),
             (locator.HomeMobileNetworkCode req =? 0);
      simpl; simpl in Hcd; rewrite Hcd; reflexivity.
  - destruct (locator.HomeMobileCountryCode req =? 0),
             (locator.HomeMobileNetworkCode req =? 0); reflexivity.
Qed.

(** Without nil entry and with a first tower, the query is built from the
    request's codes, the first tower's codes standing in for a 0. *)
Lemma search_no_nil (req : locator.Request) (cell : locator.CellTower)
    (towers : list (option locator.CellTower)) :
  locator.CellTowers req = Some cell :: towers ->
  ~ In None towers ->
  search req =
    Return {| mgo.s_radio := if String.eqb (locator.RadioType req) ""
                             then DefaultRadioType else locator.RadioType req;
              mgo.s_mcc := if locator.HomeMobileCountryCode req =? 0
                           then locator.MobileCountryCode cell
                           else locator.HomeMobileCountryCode req;
              mgo.s_mnc := if locator.HomeMobileNetworkCode req =? 0
                           then locator.MobileNetworkCode cell
                           else locator.HomeMobileNetworkCode req;
              mgo.s_or := omap (fmap alt_of) (Some cell :: towers) |}.
Proof.
  intros Ht Hnin. unfold search. rewrite Ht.
  rewrite (cellsData_no_nil (Some cell :: towers)).
  - destruct (locator.HomeMobileCountryCode req =? 0),
             (locator.HomeMobileNetworkCode req =? 0); reflexivity.
  - intros [Heq|Hin]; [discriminate|contradiction].
Qed.

Lemma existsb_Permutation {A} (f : A -> bool) (l l' : list A) :
  Permutation l l' -> existsb f l = existsb f l'.
Proof.
  intros Hp. induction Hp as [|x l l' _ IH|x y l|l l' l'' _ IH1 _ IH2]; simpl.
  - reflexivity.
  - rewrite IH. reflexivity.
  - destruct (f x), (f y); reflexivity.
  - rewrite IH1. exact IH2.
Qed.

(** Two queries that differ in the order of their alternatives only match
    the same documents. *)
Lemma matches_Permutation (q q' : mgo.Search) (k : Key) :
  mgo.s_radio q = mgo.s_radio q' ->
  mgo.s_mcc q = mgo.s_mcc q' ->
  mgo.s_mnc q = mgo.s_mnc q' ->
  Permutation (mgo.s_or q) (mgo.s_or q') ->
  mgo.matches q k = mgo.matches q' k.
Proof.
  intros Hr Hc Hn Hp. unfold mgo.matches. rewrite Hr, Hc, Hn.
  f_equal. apply existsb_Permutation. exact Hp.
Qed.

Lemma Find_Permutation (q q' : mgo.Search) (s : mgo.Session) :
  mgo.s_radio q = mgo.s_radio q' ->
  mgo.s_mcc q = mgo.s_mcc q' ->
  mgo.s_mnc q = mgo.s_mnc q' ->
  Permutation (mgo.s_or q) (mgo.s_or q') ->
  (mgo.Find q s).1 = (mgo.Find q' s).1
  /\ mgo.docs (mgo.Find q s).2 = mgo.docs (mgo.Find q' s).2.
Proof.
  intros Hr Hc Hn Hp. unfold mgo.Find.
  rewrite (List.filter_ext (fun kd => mgo.matches q kd.1) (fun kd => mgo.matches q' kd.1)
             (fun kd => matches_Permutation q q' kd.1 Hr Hc Hn Hp)).
  destruct (mgo.next_fault s) as [[k e]|]; split; reflexivity.
Qed.

(** The result of GetCells, without the session: the guard, the query, and
    the result of [Find]. *)
Lemma GetCells_result (db : DB) (req : locator.Request) :
  (GetCells db req).1 =
    if (length (locator.CellTowers req) =? 0)%nat
       && (length (locator.WifiAccessPoints req) =? 0)%nat
    then Return ([], Some ErrEmptyRequest)
    else match search req with
         | Panic p => Panic p
         | Return q => Return (mgo.Find q (session db)).1
         end.
Proof.
  unfold GetCells.
  destruct ((length (locator.CellTowers req) =? 0)%nat
            && (length (locator.WifiAccessPoints req) =? 0)%nat); [reflexivity|].
  destruct (search req) as [q|p]; [|reflexivity].
  destruct (mgo.Find q (session db)) as [res s]. reflexivity.
Qed.

(** The result of Get is a function of the result of GetCells. *)
Lemma Get_result (db : DB) (req : locator.Request) :
  (Get db req).1 =
    match (GetCells db req).1 with
    | Panic p => Panic p
    | Return (_, Some err) => Return (None, Some err)
    | Return (cells, None) => Return (Some (average cells), None)
    end.
Proof.
  unfold Get. destruct (GetCells db req) as [[[cells [err|]]|p] db']; reflexivity.
Qed.

Lemma nil_entry_dec {A} (l : list (option A)) : In None l \/ ~ In None l.
Proof.
  induction l as [|[x|] l [IH|IH]].
  - right. intros [].
  - left. right. exact IH.
  - right. intros [Heq|Hin]; [discriminate|contradiction].
  - left. left. reflexivity.
  - left. left. reflexivity.
Qed.

(** The query of a request whose towers come in another order. *)
Lemma search_Permutation (req req' : locator.Request) :
  locator.RadioType req = locator.RadioType req' ->
  locator.HomeMobileCountryCode req = locator.HomeMobileCountryCode req' ->
  locator.HomeMobileNetworkCode req = locator.HomeMobileNetworkCode req' ->
  Permutation (locator.CellTowers req) (locator.CellTowers req') ->
  (locator.HomeMobileCountryCode req <> 0 /\ locator.HomeMobileNetworkCode req <> 0)
  \/ first_codes req = first_codes req' ->
  (exists p, search req = Panic p /\ search req' = Panic p)
  \/ (exists q q', search req = Return q /\ search req' = Return q'
       /\ mgo.s_radio q = mgo.s_radio q' /\ mgo.s_mcc q = mgo.s_mcc q'
       /\ mgo.s_mnc q = mgo.s_mnc q'
       /\ Permutation (mgo.s_or q) (mgo.s_or q')).
Proof.
  intros Hr Hc Hn Hp Hcodes.
  destruct (nil_entry_dec (locator.CellTowers req)) as [Hin|Hnin].
  { left. exists NilDereference. split; apply search_nil_entry; [exact Hin|].
    eapply Permutation_in; [exact Hp | exact Hin]. }
  assert (Hnin' : ~ In None (locator.CellTowers req')).
  { intros Hin. apply Hnin. eapply Permutation_in; [symmetry; exact Hp | exact Hin]. }
  destruct (locator.CellTowers req) as [|[cell|] towers] eqn:Ht.
  - apply Permutation_nil in Hp.
    assert (Heq : search req = search req').
    { unfold search. rewrite Ht, Hp, Hr, Hc, Hn. reflexivity. }
    destruct (search req') as [q|p] eqn:Hs.
    + right. exists q, q. repeat split; try assumption; reflexivity.
    + left. exists p. split; [assumption | reflexivity].
  - destruct (locator.CellTowers req') as [|[cell'|] towers'] eqn:Ht'.
    + symmetry in Hp. apply Permutation_nil in Hp. discriminate.
    + right.
      rewrite (search_no_nil req cell towers Ht), (search_no_nil req' cell' towers' Ht').
      2: { intros Hin. apply Hnin'. right. exact Hin. }
      2: { intros Hin. apply Hnin. right. exact Hin. }
      eexists _, _. split; [reflexivity|]. split; [reflexivity|]. cbn [mgo.s_radio mgo.s_mcc mgo.s_mnc mgo.s_or].
      rewrite <- Hr, <- Hc, <- Hn.
      assert (Hfirst : (locator.HomeMobileCountryCode req =? 0) = false
                       /\ (locator.HomeMobileNetworkCode req =? 0) = false
                       \/ locator.MobileCountryCode cell = locator.MobileCountryCode cell'
                          /\ locator.MobileNetworkCode cell = locator.MobileNetworkCode cell').
      { destruct Hcodes as [[Hc0 Hn0]|Hf].
        - left. split; apply Z.eqb_neq; assumption.
        - right. unfold first_codes in Hf. rewrite Ht, Ht' in Hf.
          injection Hf as Hmcc Hmnc. split; assumption. }
      split; [reflexivity|].
      split; [|split].
      * destruct Hfirst as [[-> _]|[-> _]]; reflexivity.
      * destruct Hfirst as [[_ ->]|[_ ->]]; reflexivity.
      * apply omap_Permutation. exact Hp.
    + exfalso. apply Hnin'. left. reflexivity.
  - exfalso. apply Hnin. left. reflexivity.
Qed.

(** C7, as the code has it: two requests that differ in the order of their
    observed towers only get the same cells from GetCells and the same
    answer (point and accuracy radius) from Get, provided the country and
    network codes of the query are the same for both: the request gives
    both codes itself, or the towers that come first carry the same codes. *)
Theorem tower_order_irrelevant (db : DB) (req req' : locator.Request) :
  locator.RadioType req = locator.RadioType req' ->
  locator.HomeMobileCountryCode req = locator.HomeMobileCountryCode req' ->
  locator.HomeMobileNetworkCode req = locator.HomeMobileNetworkCode req' ->
  Permutation (locator.CellTowers req) (locator.CellTowers req') ->
  Permutation (locator.WifiAccessPoints req) (locator.WifiAccessPoints req') ->
  (locator.HomeMobileCountryCode req <> 0 /\ locator.HomeMobileNetworkCode req <> 0)
  \/ first_codes req = first_codes req' ->
  (GetCells db req).1 = (GetCells db req').1
  /\ (Get db req).1 = (Get db req').1.
Proof.
  intros Hr Hc Hn Hp Hw Hcodes.
  assert (Hcells : (GetCells db req).1 = (GetCells db req').1).
  { rewrite !GetCells_result.
    rewrite (Permutation_length Hp), (Permutation_length Hw).
    destruct ((length (locator.CellTowers req') =? 0)%nat
              && (length (locator.WifiAccessPoints req') =? 0)%nat); [reflexivity|].
    destruct (search_Permutation req req' Hr Hc Hn Hp Hcodes)
      as [(p & -> & ->)|(q & q' & -> & -> & Hqr & Hqc & Hqn & Hqp)]; [reflexivity|].
    f_equal. apply Find_Permutation; assumption. }
  split; [exact Hcells|]. rewrite !Get_result, Hcells. reflexivity.
Qed.
End TowerOrder.

(** The first two towers of the repository's test, in both orders. *)
Lemma tower_order_irrelevant_witness :
  let db := sample.store {[sample.key := sample.data 50]} sample.healthy in
  let req := sample.request
               [Some (sample.tower 2 7743 22517); Some (sample.tower 2 7743 39696)] [] in
  let req' := sample.request
                [Some (sample.tower 2 7743 39696); Some (sample.tower 2 7743 22517)] [] in
  (GetCells db req).1 = (GetCells db req').1
  /\ (Get db req).1 = (Get db req').1.
Proof.
  intros db req req'.
  apply (tower_order_irrelevant db req req');
    [reflexivity | reflexivity | reflexivity | apply perm_swap | apply perm_nil
    | right; reflexivity].
Defined.

(** C7 as stated fails when the towers carry different network codes and
    the request gives none: the query takes the codes of the tower that
    comes first, so one order finds the stored record and the other finds
    nothing. *)
Lemma tower_order_matters :
  let db := sample.store {[sample.key := sample.data 50]} sample.healthy in
  let req := sample.request
               [Some (sample.tower 2 7743 22517); Some (sample.tower 1 7743 39696)] [] in
  let req' := sample.request
                [Some (sample.tower 1 7743 39696); Some (sample.tower 2 7743 22517)] [] in
  Permutation (locator.CellTowers req) (locator.CellTowers req')
  /\ (GetCells db req).1 = Return ([sample.data 50], None)
  /\ (GetCells db req').1 = Return ([], None)
  /\ (Get db req).1 = Return (Some (response (557 / 10) (376 / 10) 50), None)
  /\ (Get db req').1 = Return (Some (response (0 / 0) (0 / 0) 0), None)
  /\ (Get db req).1 <> (Get db req').1.
Proof.
  intros db req req'.
  assert (Hc : GetCells db req = (Return ([sample.data 50], None), (GetCells db req).2))
    by reflexivity.
  assert (Hc' : GetCells db req' = (Return ([], None), (GetCells db req').2))
    by reflexivity.
  assert (Hg : (Get db req).1
               = Return (Some (response (557 / 10) (376 / 10) 50), None)).
  { rewrite (Get_average _ _ _ _ Hc), average_single.
    unfold sample.data, lat_of, lon_of. cbn [Accuracy Location geo.Latitude geo.Longitude].
    rewrite Rmax_right by lra. reflexivity. }
  assert (Hg' : (Get db req').1 = Return (Some (response (0 / 0) (0 / 0) 0), None)).
  { rewrite (Get_average _ _ _ _ Hc'). reflexivity. }
  split; [apply perm_swap|]. split; [reflexivity|]. split; [reflexivity|].
  split; [exact Hg|]. split; [exact Hg'|].
  rewrite Hg, Hg'. unfold response. intros Heq. injection Heq as _ _ Ha. lra.
Qed.

(** ** The import *)

Section ImportRun.
Context `{GoFloat64}.
Import lbs_import.

(** The upserts staged when the loop is left extend those staged before;
    when none is added and the loop ends with the file, the counter is
    what it was. *)
Lemma read_loop_staged (fl : Flags) (file : list (option (list string))) :
  forall (fpr counter lines : Z) (bulk : list (Key * Data)),
  exists added,
    staged (read_loop fl file fpr counter lines bulk) = bulk ++ added
    /\ (added = [] ->
        forall c l b, read_loop fl file fpr counter lines bulk = LoopEOF c l b ->
                      c = counter).
Proof.
  induction file as [|next file IH]; intros fpr counter lines bulk; simpl.
  - exists []. split; [symmetry; apply app_nil_r|].
    intros _ c l b Heq. injection Heq as <- _ _. reflexivity.
  - destruct (csv.Read fpr next) as [[|record] fpr'].
    + exists []. split; [symmetry; apply app_nil_r|]. intros _ c l b Heq. discriminate.
    + destruct (uint64 (lines + 1) =? 1); [apply IH|].
      destruct (row fl record) as [[upsert|]|p].
      * destruct (IH fpr' (uint64 (counter + 1)) (uint64 (lines + 1)) (bulk ++ [upsert]))
          as (added & Hst & _).
        exists (upsert :: added). split.
        -- rewrite Hst, <- app_assoc. reflexivity.
        -- intros Hnil. discriminate.
      * apply IH.
      * exists []. split; [symmetry; apply app_nil_r|]. intros _ c l b Heq. discriminate.
Qed.

(** A loop that reaches the end of the file with nothing staged has its
    counter at 0. *)
Lemma read_loop_nothing (fl : Flags) (file : list (option (list string)))
    (counter lines : Z) :
  read_loop fl file 0 0 0 [] = LoopEOF counter lines [] -> counter = 0.
Proof.
  intros Heq. destruct (read_loop_staged fl file 0 0 0 []) as (added & Hst & Hc).
  rewrite Heq in Hst. simpl in Hst. subst added. eapply Hc; [reflexivity | exact Heq].
Qed.

(** The session that the prologue leaves. *)
Lemma prologue_early (fl : Flags) (args : list string) (w : World)
    (s s1 : mgo.Session) (e : exit) :
  prologue fl args w s = inl (e, s1) ->
  (s1 = s \/ s1 = mgo.issue mgo.OpEnsureIndex (mgo.docs s) s)
  /\ (forall total, e <> ExitDone total).
Proof.
  unfold prologue, mgo.EnsureIndex.
  destruct (negb (length args =? 1)%nat);
    [intros [= <- <-]; split; [left; reflexivity|discriminate]|].
  destruct (negb (ParseURL_ok w (mongourl fl)));
    [intros [= <- <-]; split; [left; reflexivity|discriminate]|].
  destruct (negb (Dial_ok w));
    [intros [= <- <-]; split; [left; reflexivity|discriminate]|].
  destruct (mgo.next_fault s) as [[k err]|]; simpl.
  - intros [= <- <-]. split; [right; reflexivity|discriminate].
  - destruct (Open w (default "" (args !! 0%nat))); [discriminate|].
    intros [= <- <-]. split; [right; reflexivity|discriminate].
Qed.

Lemma prologue_goes_on (fl : Flags) (args : list string) (w : World)
    (s s1 : mgo.Session) (filename : string) (file : list (option (list string))) :
  prologue fl args w s = inr (filename, file, s1) ->
  filename = default "" (args !! 0%nat)
  /\ s1 = mgo.issue mgo.OpEnsureIndex (mgo.docs s) s
  /\ mgo.next_fault s = None.
Proof.
  unfold prologue, mgo.EnsureIndex.
  destruct (negb (length args =? 1)%nat); [discriminate|].
  destruct (negb (ParseURL_ok w (mongourl fl))); [discriminate|].
  destruct (negb (Dial_ok w)); [discriminate|].
  destruct (mgo.next_fault s) as [[k err]|]; simpl; [discriminate|].
  destruct (Open w (default "" (args !! 0%nat))); [|discriminate].
  intros [= <- _ <-]. repeat split; reflexivity.
Qed.

(** A run that accepts no row leaves the documents as they were, and
    issues at most the [EnsureIndex] of the prologue. *)
Lemma main_nothing_accepted (fl : Flags) (args : list string) (w : World)
    (s : mgo.Session) :
  accepted fl args w s = [] ->
  mgo.docs (main fl args w s).2 = mgo.docs s
  /\ (mgo.trace (main fl args w s).2 = mgo.trace s
      \/ mgo.trace (main fl args w s).2 = mgo.trace s ++ [mgo.OpEnsureIndex]).
Proof.
  unfold accepted, main. intros Hacc.
  destruct (prologue fl args w s) as [[e s1]|[[filename file] s1]] eqn:Hp.
  - apply prologue_early in Hp as [[->| ->] _]; simpl; auto.
  - apply prologue_goes_on in Hp as (_ & -> & _).
    destruct (read_loop fl file 0 0 0 []) as [counter lines bulk|bulk|p bulk] eqn:Hl;
      simpl in Hacc; subst bulk; simpl; auto.
    apply read_loop_nothing in Hl. subst counter. simpl. auto.
Qed.

(** After a sequence of upserts, a document is one that was there before
    or one of those set by the sequence. *)
Lemma upserts_lookup (bulk : list (Key * Data)) :
  forall (m : gmap Key Data) (k : Key) (d : Data),
  foldl mgo.upsert m bulk !! k = Some d -> m !! k = Some d \/ In (k, d) bulk.
Proof.
  induction bulk as [|[k' d'] bulk IH]; intros m k d; simpl; [auto|].
  intros Hl. apply IH in Hl as [Hl|Hin]; [|right; right; exact Hin].
  unfold mgo.upsert in Hl. simpl in Hl.
  apply lookup_insert_Some in Hl as [[-> ->]|[_ Hl]]; [right; left; reflexivity|].
  left. exact Hl.
Qed.

(** Upserts remove nothing, and every key of the sequence has a document
    afterwards. *)
Lemma upserts_keep (bulk : list (Key * Data)) :
  forall (m : gmap Key Data) (k : Key),
  is_Some (m !! k) -> is_Some (foldl mgo.upsert m bulk !! k).
Proof.
  induction bulk as [|[k' d'] bulk IH]; intros m k Hm; simpl; [exact Hm|].
  apply IH. unfold mgo.upsert. simpl.
  destruct (decide (k' = k)) as [->|Hne].
  - rewrite lookup_insert_eq. eauto.
  - rewrite lookup_insert_ne by exact Hne. exact Hm.
Qed.

Lemma upserts_present (bulk : list (Key * Data)) :
  forall (m : gmap Key Data) (k : Key) (d : Data),
  In (k, d) bulk -> is_Some (foldl mgo.upsert m bulk !! k).
Proof.
  induction bulk as [|[k' d'] bulk IH]; intros m k d; simpl; [intros []|].
  intros [[= -> ->]|Hin]; [|eapply IH; exact Hin].
  apply upserts_keep. unfold mgo.upsert. simpl. rewrite lookup_insert_eq. eauto.
Qed.

(** C6: a run that accepts no row executes neither the delete of the full
    mode nor any upsert: the documents of the collection are what they
    were, and the only store operation that the run may have issued is the
    [EnsureIndex] of its start. *)
Theorem no_row_accepted_no_mutation (fl : Flags) (args : list string)
    (w : World) (s : mgo.Session) :
  accepted fl args w s = [] ->
  mgo.docs (main fl args w s).2 = mgo.docs s
  /\ ~ In mgo.OpRemoveAll (drop (length (mgo.trace s)) (mgo.trace (main fl args w s).2))
  /\ (forall bulk, ~ In (mgo.OpBulkRun bulk)
                       (drop (length (mgo.trace s)) (mgo.trace (main fl args w s).2)))
  /\ (mgo.trace (main fl args w s).2 = mgo.trace s
      \/ mgo.trace (main fl args w s).2 = mgo.trace s ++ [mgo.OpEnsureIndex]).
Proof.
  intros Hacc. destruct (main_nothing_accepted fl args w s Hacc) as [Hd Ht].
  split; [exact Hd|].
  assert (Hnew : drop (length (mgo.trace s)) (mgo.trace (main fl args w s).2) = []
                 \/ drop (length (mgo.trace s)) (mgo.trace (main fl args w s).2)
                    = [mgo.OpEnsureIndex]).
  { destruct Ht as [-> | ->].
    - left. apply drop_all.
    - right. rewrite drop_app_length. reflexivity. }
  split; [|split; [|exact Ht]].
  - destruct Hnew as [-> | ->]; [intros []|intros [Heq|[]]; discriminate].
  - intros bulk. destruct Hnew as [-> | ->]; [intros []|intros [Heq|[]]; discriminate].
Qed.

(** C5: a full import that accepts at least one row and runs to its end
    leaves in the collection only documents set by the rows it accepted
    (and one for the key of every such row): the run issues the delete of
    all documents, which empties the collection, before the staged
    upserts.  A run that accepts no row leaves the documents as they were. *)
Theorem full_import_replaces_collection (fl : Flags) (args : list string)
    (w : World) (s : mgo.Session) :
  (accepted fl args w s <> [] ->
   full_mode args = true ->
   forall total s',
     main fl args w s = (Return (ExitDone total), s') ->
     (forall k d, mgo.docs s' !! k = Some d -> In (k, d) (accepted fl args w s))
     /\ (forall k d, In (k, d) (accepted fl args w s) -> is_Some (mgo.docs s' !! k))
     /\ mgo.trace s' = mgo.trace s ++ [mgo.OpEnsureIndex; mgo.OpRemoveAll;
                                        mgo.OpBulkRun (accepted fl args w s);
                                        mgo.OpCount])
  /\ (accepted fl args w s = [] -> mgo.docs (main fl args w s).2 = mgo.docs s).
Proof.
  split; [|intros Hacc; apply (main_nothing_accepted fl args w s Hacc)].
  intros _ Hfull total s'. unfold accepted, main.
  destruct (prologue fl args w s) as [[e s1]|[[filename file] s1]] eqn:Hp.
  { apply prologue_early in Hp as [_ He]. intros [= -> _]. destruct (He total eq_refl). }
  apply prologue_goes_on in Hp as (-> & -> & _).
  destruct (read_loop fl file 0 0 0 []) as [counter lines bulk|bulk|p bulk];
    [|discriminate|discriminate].
  unfold commit. destruct (counter =? 0); [discriminate|].
  unfold full_mode in Hfull. rewrite Hfull.
  unfold mgo.RemoveAll, mgo.BulkRun, mgo.Count.
  set (s1 := mgo.issue mgo.OpEnsureIndex (mgo.docs s) s).
  destruct (mgo.next_fault s1) as [[k1 e1]|]; [discriminate|].
  set (s2 := mgo.issue mgo.OpRemoveAll ∅ s1).
  destruct (mgo.next_fault s2) as [[k2 e2]|]; [discriminate|].
  set (s3 := mgo.issue (mgo.OpBulkRun bulk) (foldl mgo.upsert (mgo.docs s2) bulk) s2).
  destruct (mgo.next_fault s3) as [[k3 e3]|]; [discriminate|].
  intros [= _ <-]. simpl. split; [|split].
  - intros k d Hl. apply upserts_lookup in Hl as [Hl|Hin]; [|exact Hin].
    rewrite lookup_empty in Hl. discriminate.
  - intros k d Hin. eapply upserts_present. exact Hin.
  - rewrite <- !app_assoc. reflexivity.
Qed.
End ImportRun.

(** A run whose only row is an LTE tower, which the radio filter "gsm"
    skips. *)
Lemma no_row_accepted_no_mutation_witness :
  let args := ["cell_towers.csv"] in
  let w := sample.world [Some sample.header; Some (sample.row "LTE")] in
  let s' := (lbs_import.main sample.flags args w sample.collection).2 in
  mgo.docs s' = mgo.docs sample.collection
  /\ ~ In mgo.OpRemoveAll (drop (length (mgo.trace sample.collection)) (mgo.trace s'))
  /\ (forall bulk, ~ In (mgo.OpBulkRun bulk)
                       (drop (length (mgo.trace sample.collection)) (mgo.trace s')))
  /\ (mgo.trace s' = mgo.trace sample.collection
      \/ mgo.trace s' = mgo.trace sample.collection ++ [mgo.OpEnsureIndex]).
Proof.
  intros args w.
  apply (no_row_accepted_no_mutation sample.flags args w sample.collection).
  reflexivity.
Defined.

(** A full import of one GSM row into a collection that holds a record of
    an earlier import: the run ends with one document, the one of the row. *)
Lemma full_import_replaces_collection_witness :
  let args := ["cell_towers.csv"] in
  let w := sample.world [Some sample.header; Some (sample.row "GSM")] in
  let run := lbs_import.main sample.flags args w sample.collection in
  let rows := lbs_import.accepted sample.flags args w sample.collection in
  rows <> []
  /\ lbs_import.full_mode args = true
  /\ run.1 = Return (lbs_import.ExitDone 1)
  /\ (forall k d, mgo.docs run.2 !! k = Some d -> In (k, d) rows)
  /\ (forall k d, In (k, d) rows -> is_Some (mgo.docs run.2 !! k))
  /\ mgo.trace run.2 = mgo.trace sample.collection
                       ++ [mgo.OpEnsureIndex; mgo.OpRemoveAll; mgo.OpBulkRun rows;
                           mgo.OpCount].
Proof.
  intros args w run rows.
  assert (Hlen : length rows = 1%nat) by reflexivity.
  assert (Hrows : rows <> []).
  { intros Heq. rewrite Heq in Hlen. discriminate Hlen. }
  assert (Hfull : lbs_import.full_mode args = true) by reflexivity.
  assert (Hrun : run = (Return (lbs_import.ExitDone 1), run.2)) by reflexivity.
  split; [exact Hrows|]. split; [exact Hfull|]. split; [rewrite Hrun; reflexivity|].
  exact (proj1 (full_import_replaces_collection sample.flags args w sample.collection)
           Hrows Hfull 1 run.2 Hrun).
Defined.

(** * Further properties of the resolution engine *)

Section EngineFacts.
Context `{GoFloat64}.

Lemma matches_true (q : mgo.Search) (k : Key) :
  mgo.matches q k = true <->
  RadioType k = mgo.s_radio q
  /\ MobileCountryCode k = mgo.s_mcc q
  /\ MobileNetworkCode k = mgo.s_mnc q
  /\ In (LocationAreaCode k, CellId k) (mgo.s_or q).
Proof.
  unfold mgo.matches. rewrite !andb_true_iff, String.eqb_eq, !Z.eqb_eq, existsb_exists.
  split.
  - intros [[[Hr Hc] Hn] ([lac cell] & Hin & Halt)]. simpl in Halt.
    apply andb_true_iff in Halt as [Hl Hi]. apply Z.eqb_eq in Hl, Hi.
    rewrite Hl, Hi. auto.
  - intros (Hr & Hc & Hn & Hin). repeat split; try assumption.
    exists (LocationAreaCode k, CellId k). split; [exact Hin|]. simpl.
    rewrite !Z.eqb_refl. reflexivity.
Qed.


(** X1: GetCells, Get and Records never change the documents of the
    collection.  GetCells issues no store operation or the one [Find] of its
    query, Get leaves the session as GetCells does, and Records issues one
    [Count]. *)
Theorem lookups_leave_the_documents (db : DB) (req : locator.Request) :
  (mgo.docs (session (GetCells db req).2) = mgo.docs (session db)
   /\ name (GetCells db req).2 = name db
   /\ (mgo.trace (session (GetCells db req).2) = mgo.trace (session db)
       \/ exists q, search req = Return q
                    /\ mgo.trace (session (GetCells db req).2)
                       = mgo.trace (session db) ++ [mgo.OpFind q]))
  /\ (Get db req).2 = (GetCells db req).2
  /\ (mgo.docs (session (Records db).2) = mgo.docs (session db)
      /\ name (Records db).2 = name db
      /\ mgo.trace (session (Records db).2) = mgo.trace (session db) ++ [mgo.OpCount]).
Proof.
  split; [|split].
  - unfold GetCells.
    destruct ((length (locator.CellTowers req) =? 0)%nat
              && (length (locator.WifiAccessPoints req) =? 0)%nat); [simpl; auto|].
    destruct (search req) as [q|p]; [|simpl; auto].
    unfold mgo.Find. destruct (mgo.next_fault (session db)) as [[k e]|]; simpl;
      (split; [reflexivity|split; [reflexivity|right; exists q; auto]]).
  - unfold Get. destruct (GetCells db req) as [[[cells [err|]]|p] db']; reflexivity.
  - unfold Records, mgo.Count.
    destruct (mgo.next_fault (session db)) as [[k e]|]; simpl; auto.
Qed.


(** A duplicate-free list all of whose members are [x], and that has [x],
    is [[x]]. *)
Lemma NoDup_all_equal {A} (x : A) (l : list A) :
  List.NoDup l -> In x l -> (forall y, In y l -> y = x) -> l = [x].
Proof.
  intros Hnd Hin Hall. destruct l as [|a [|b l]].
  - destruct Hin.
  - rewrite (Hall a); [reflexivity | left; reflexivity].
  - exfalso. inversion Hnd as [|? ? Hna _]. apply Hna.
    rewrite (Hall a), <- (Hall b); [left; reflexivity | right; left; reflexivity
                                    | left; reflexivity].
Qed.

(** The query for the tower of a key matches that key only. *)
Lemma matches_query_of (k k' : Key) : mgo.matches (query_of k) k' = true <-> k' = k.
Proof.
  rewrite matches_true. unfold query_of. simpl. split.
  - intros (Hr & Hc & Hn & [[= Hlac Hcell]|[]]).
    destruct k, k'. simpl in *. congruence.
  - intros ->. repeat split. left. reflexivity.
Qed.

(** In a collection that has a document for [k], the documents that the
    query for [k] matches are that one. *)
Lemma filter_query_of (m : gmap Key Data) (k : Key) (d : Data) :
  m !! k = Some d ->
  List.filter (fun kd => mgo.matches (query_of k) kd.1) (map_to_list m) = [(k, d)].
Proof.
  intros Hl. apply NoDup_all_equal.
  - apply List.NoDup_filter, NoDup_ListNoDup, NoDup_map_to_list.
  - apply List.filter_In. split; [apply list_elem_of_In, elem_of_map_to_list; exact Hl|].
    apply matches_query_of. reflexivity.
  - intros [k' d'] Hin. apply List.filter_In in Hin as [Hin Hm]. simpl in Hm.
    apply matches_query_of in Hm. subst k'.
    apply list_elem_of_In, elem_of_map_to_list in Hin. congruence.
Qed.

Lemma search_request_of (k : Key) :
  RadioType k <> "" -> search (request_of k) = Return (query_of k).
Proof.
  intros Hr. unfold search. cbn [request_of locator.CellTowers locator.RadioType
    locator.HomeMobileCountryCode locator.HomeMobileNetworkCode].
  destruct (String.eqb (RadioType k) "") eqn:He; [apply String.eqb_eq in He; contradiction|].
  reflexivity.
Qed.

(** X3: a request that observes the tower of a stored key, under the key's
    radio type, gets the data of that one document from a healthy store. *)
Theorem GetCells_finds_the_stored_key (db : DB) (k : Key) (d : Data) :
  mgo.docs (session db) !! k = Some d ->
  RadioType k <> "" ->
  mgo.next_fault (session db) = None ->
  (GetCells db (request_of k)).1 = Return ([d], None).
Proof.
  intros Hl Hr Hf. rewrite GetCells_result, (search_request_of k Hr).
  cbn [request_of locator.CellTowers length Nat.eqb andb].
  unfold mgo.Find. rewrite Hf, (filter_query_of _ k d Hl). reflexivity.
Qed.

(** X4: a nil entry among the observed towers makes GetCells, and Get
    through it, panic on the nil pointer before any store operation,
    wherever the entry stands. *)
Theorem nil_tower_panics (db : DB) (req : locator.Request) :
  In None (locator.CellTowers req) ->
  GetCells db req = (Panic NilDereference, db)
  /\ Get db req = (Panic NilDereference, db).
Proof.
  intros Hin. assert (Hg : GetCells db req = (Panic NilDereference, db)).
  { unfold GetCells. rewrite (search_nil_entry req Hin).
    destruct (locator.CellTowers req) as [|p towers]; [destruct Hin|]. reflexivity. }
  split; [exact Hg|]. unfold Get. rewrite Hg. reflexivity.
Qed.

(** X5: a request with wifi access points and no cell tower makes GetCells
    panic on [CellTowers[0]] exactly when one of its home codes is 0; with
    both home codes given it reaches the store, with a query that has no
    alternative. *)
Theorem wifi_only_request_outcome (db : DB) (req : locator.Request) :
  locator.CellTowers req = [] ->
  locator.WifiAccessPoints req <> [] ->
  ((GetCells db req).1 = Panic (IndexOutOfRange 0 0)
   <-> locator.HomeMobileCountryCode req = 0 \/ locator.HomeMobileNetworkCode req = 0)
  /\ (locator.HomeMobileCountryCode req <> 0 ->
      locator.HomeMobileNetworkCode req <> 0 ->
      exists q, search req = Return q /\ mgo.s_or q = []
                /\ (GetCells db req).1 = Return (mgo.Find q (session db)).1).
Proof.
  intros Ht Hw. rewrite GetCells_result, Ht.
  destruct (locator.WifiAccessPoints req) as [|ap aps]; [contradiction|].
  cbn [length Nat.eqb andb]. unfold search. rewrite Ht.
  destruct (Z.eqb_spec (locator.HomeMobileCountryCode req) 0) as [Hc|Hc];
    destruct (Z.eqb_spec (locator.HomeMobileNetworkCode req) 0) as [Hn|Hn]; simpl.
  - split; [split; auto|]. intros Hc'. contradiction.
  - split; [split; auto|]. intros Hc'. contradiction.
  - split; [split; auto|]. intros _ Hn'. contradiction.
  - split.
    + split; [discriminate|]. intros [Hc'|Hn']; contradiction.
    + intros _ _. eexists. split; [reflexivity|]. split; reflexivity.
Qed.

Lemma cellsData_same_cells (towers towers' : list (option locator.CellTower)) :
  Forall2 same_cell towers towers' -> cellsData towers = cellsData towers'.
Proof.
  induction 1 as [|p p' towers towers' Hp _ IH]; [reflexivity|].
  destruct p as [c|], p' as [c'|]; simpl in Hp; try contradiction; [|reflexivity].
  destruct Hp as [Hlac Hcell]. simpl. rewrite IH. unfold alt_of. rewrite Hlac, Hcell.
  reflexivity.
Qed.

(** X6: of its observed towers GetCells reads the location area codes and
    the cell identifiers, and the country and network codes of the first
    one when a home code is 0; of the wifi access points it reads whether
    there is one.  Two requests that agree on these, and on the radio type
    and home codes, get the same result and leave the same session. *)
Theorem GetCells_reads_cells_only (db : DB) (req req' : locator.Request) :
  locator.RadioType req = locator.RadioType req' ->
  locator.HomeMobileCountryCode req = locator.HomeMobileCountryCode req' ->
  locator.HomeMobileNetworkCode req = locator.HomeMobileNetworkCode req' ->
  Forall2 same_cell (locator.CellTowers req) (locator.CellTowers req') ->
  (locator.WifiAccessPoints req = [] <-> locator.WifiAccessPoints req' = []) ->
  (locator.HomeMobileCountryCode req <> 0 /\ locator.HomeMobileNetworkCode req <> 0)
  \/ first_codes req = first_codes req' ->
  GetCells db req = GetCells db req' /\ Get db req = Get db req'.
Proof.
  intros Hr Hc Hn Ht Hw Hcodes.
  assert (Hs : search req = search req').
  { unfold search. rewrite <- Hr, <- Hc, <- Hn.
    rewrite <- (cellsData_same_cells _ _ Ht).
    unfold first_codes in Hcodes.
    destruct Ht as [|p p' towers towers' Hp Ht]; [reflexivity|].
    destruct p as [c|], p' as [c'|]; simpl in Hp; try contradiction.
    - simpl.
      destruct (Z.eqb_spec (locator.HomeMobileCountryCode req) 0) as [Hc0|Hc0];
        destruct (Z.eqb_spec (locator.HomeMobileNetworkCode req) 0) as [Hn0|Hn0];
        try reflexivity;
        (destruct Hcodes as [[Hc1 Hn1]|[= Hmcc Hmnc]];
         [contradiction | rewrite ?Hmcc, ?Hmnc; reflexivity]).
    - simpl.
      destruct (locator.HomeMobileCountryCode req =? 0),
               (locator.HomeMobileNetworkCode req =? 0); reflexivity. }
  assert (Hg : GetCells db req = GetCells db req').
  { unfold GetCells. rewrite Hs, (Forall2_length _ _ _ Ht).
    destruct (locator.WifiAccessPoints req) as [|a aps],
             (locator.WifiAccessPoints req') as [|a' aps']; try reflexivity.
    - destruct Hw as [Hw _]. discriminate (Hw eq_refl).
    - destruct Hw as [_ Hw]. discriminate (Hw eq_refl). }
  split; [exact Hg|]. unfold Get. rewrite Hg. reflexivity.
Qed.

(** X7: Get returns a response exactly when it returns no error: never
    both, never neither. *)
Theorem Get_response_xor_error (db : DB) (req : locator.Request) :
  match (Get db req).1 with
  | Return (Some _, None) | Return (None, Some _) | Panic _ => True
  | Return (Some _, Some _) | Return (None, None) => False
  end.
Proof.
  unfold Get. destruct (GetCells db req) as [[[cells [err|]]|p] db']; exact I.
Qed.
End EngineFacts.


(** The stored key of the round-trip example, looked up by its own tower. *)
Lemma GetCells_finds_the_stored_key_witness :
  (GetCells (sample.store {[sample.key := sample.data 50]} sample.healthy)
            (request_of sample.key)).1
  = Return ([sample.data 50], None).
Proof.
  apply (GetCells_finds_the_stored_key
           (sample.store {[sample.key := sample.data 50]} sample.healthy)
           sample.key (sample.data 50));
    [reflexivity | discriminate | reflexivity].
Defined.

(** A request whose second tower is nil. *)
Lemma nil_tower_panics_witness :
  let db := sample.store ∅ sample.healthy in
  let req := sample.request [Some (sample.tower 2 7743 22517); None] [] in
  GetCells db req = (Panic NilDereference, db)
  /\ Get db req = (Panic NilDereference, db).
Proof.
  intros db req. apply (nil_tower_panics db req). right. left. reflexivity.
Defined.

(** A wifi-only request without home codes. *)
Lemma wifi_only_request_outcome_witness :
  let db := sample.store ∅ sample.healthy in
  let req := sample.request [] [sample.access_point] in
  ((GetCells db req).1 = Panic (IndexOutOfRange 0 0)
   <-> locator.HomeMobileCountryCode req = 0 \/ locator.HomeMobileNetworkCode req = 0)
  /\ (locator.HomeMobileCountryCode req <> 0 ->
      locator.HomeMobileNetworkCode req <> 0 ->
      exists q, search req = Return q /\ mgo.s_or q = []
                /\ (GetCells db req).1 = Return (mgo.Find q (session db)).1).
Proof.
  intros db req. apply (wifi_only_request_outcome db req); [reflexivity | discriminate].
Defined.

(** Two requests for the same cell that differ in the signal strength, the
    age and the timing advance of the tower. *)
Lemma GetCells_reads_cells_only_witness :
  let db := sample.store {[sample.key := sample.data 50]} sample.healthy in
  let req := sample.request [Some (sample.tower 2 7743 22517)] [] in
  let req' := sample.request
                [Some {| locator.MobileCountryCode := 250; locator.MobileNetworkCode := 2;
                         locator.LocationAreaCode := 7743; locator.CellId := 22517;
                         locator.SignalStrength := -101; locator.Age := 7;
                         locator.TimingAdvance := 1 |}] [] in
  GetCells db req = GetCells db req' /\ Get db req = Get db req'.
Proof.
  intros db req req'.
  apply (GetCells_reads_cells_only db req req');
    [reflexivity | reflexivity | reflexivity
    | constructor; [split; reflexivity | constructor]
    | split; reflexivity
    | right; reflexivity].
Defined.

(** * Further properties of the answer, in exact arithmetic *)

Section ExactAnswerFacts.
Local Existing Instance Real64.
Local Open Scope R_scope.

(** What [average] computes for any list of cells, the empty one included. *)
Lemma average_fold (cells : list Data) :
  let lat := (0 + foldr Rplus 0 (map lat_of cells)) / IZR (Z.of_nat (length cells)) in
  let lon := (0 + foldr Rplus 0 (map lon_of cells)) / IZR (Z.of_nat (length cells)) in
  average cells = response lat lon (maximum 0 (map (radius lat lon) cells)).
Proof.
  intros lat lon. unfold average. rewrite sum_step_foldl.
  cbv beta iota zeta. cbn [fdiv fadd of_int Real64].
  fold lat lon. rewrite acc_step_foldl. reflexivity.
Qed.

(** A response of Get is the average of the cells of GetCells. *)
Lemma Get_response (db db' : DB) (req : locator.Request) (resp : locator.Response) :
  Get db req = (Return (Some resp, None), db') ->
  exists cells, GetCells db req = (Return (cells, None), db') /\ resp = average cells.
Proof.
  unfold Get. destruct (GetCells db req) as [[[cells [err|]]|p] db'']; try discriminate.
  intros [= <- <-]. exists cells. split; reflexivity.
Qed.





(** X8: the accuracy radius of a response of Get is never negative,
    whatever the stored accuracy radii are. *)
Theorem accuracy_is_not_negative (db db' : DB) (req : locator.Request)
    (resp : locator.Response) :
  Get db req = (Return (Some resp, None), db') ->
  0 <= locator.Accuracy resp.
Proof.
  intros Hg. apply Get_response in Hg as (cells & _ & ->).
  rewrite average_fold. cbn [locator.Accuracy response].
  apply maximum_ge. left. reflexivity.
Qed.


End ExactAnswerFacts.

(** The response of the round-trip example has a non-negative accuracy. *)
Lemma accuracy_is_not_negative_witness :
  let db := sample.store {[sample.key := sample.data 50]} sample.healthy in
  let req := sample.request [Some (sample.tower 2 7743 22517)] [] in
  (0 <= locator.Accuracy (average [sample.data 50]))%R.
Proof.
  intros db req.
  apply (accuracy_is_not_negative db (Get db req).2 req (average [sample.data 50])).
  reflexivity.
Defined.



(** * Further properties of the import *)

Section ImportFacts.
Context `{GoFloat64}.
Import lbs_import.

Lemma Split_nonempty (s : string) (sep : ascii) : strings.Split s sep <> [].
Proof.
  induction s as [|c s IH]; simpl; [discriminate|].
  destruct (Ascii.eqb c sep); [discriminate|].
  destruct (strings.Split s sep); discriminate.
Qed.

Lemma lookup_bool_true `{Countable K} (m : gmap K bool) (k : K) :
  lookup_bool m k = true <-> m !! k = Some true.
Proof.
  unfold lookup_bool. destruct (m !! k) as [[|]|]; simpl; split; congruence.
Qed.

(** The entries set by a loop of [m[f x] = true] over a list. *)
Lemma foldl_insert_true `{Countable K} {A} (f : A -> option K) (l : list A) :
  forall (m : gmap K bool) (k : K),
  foldl (fun m x => match f x with None => m | Some i => <[i := true]> m end) m l !! k
    = Some true
  <-> m !! k = Some true \/ exists x, In x l /\ f x = Some k.
Proof.
  induction l as [|x l IH]; intros m k; simpl.
  - split; [auto|]. intros [Hm|(x & [] & _)]. exact Hm.
  - rewrite IH. destruct (f x) as [i|] eqn:Hf.
    + rewrite lookup_insert_Some. split.
      * intros [[[-> _]|[_ Hm]]|(y & Hy & Hfy)]; eauto.
      * intros [Hm|(y & [->|Hy] & Hfy)].
        -- destruct (decide (i = k)) as [->|Hne]; auto.
        -- left. left. split; congruence.
        -- right. eauto.
    + split.
      * intros [Hm|(y & Hy & Hfy)]; eauto.
      * intros [Hm|(y & [->|Hy] & Hfy)]; [auto | congruence | eauto].
Qed.

Lemma filterRadio_lookup (fl : Flags) (radio : string) :
  lookup_bool (filterRadio fl) radio = true
  <-> exists x, In x (strings.Split (radiofilter fl) ",")
                /\ radio = strings.ToLower (strings.TrimSpace x).
Proof.
  rewrite lookup_bool_true. unfold filterRadio.
  rewrite (foldl_insert_true (fun x => Some (strings.ToLower (strings.TrimSpace x)))).
  rewrite lookup_empty. split.
  - intros [Hm|(x & Hx & [= <-])]; [discriminate|]. eauto.
  - intros (x & Hx & ->). right. eauto.
Qed.

Lemma filterCountry_lookup (fl : Flags) (mcc : Z) :
  lookup_bool (filterCountry fl) mcc = true
  <-> exists c, In c (strings.Split (countryfilter fl) ",")
                /\ strconv.ParseUint c 16 = Some mcc.
Proof.
  rewrite lookup_bool_true. unfold filterCountry.
  rewrite (foldl_insert_true (fun c => strconv.ParseUint c 16)).
  rewrite lookup_empty. split.
  - intros [Hm|Hx]; [discriminate | exact Hx].
  - intros Hx. right. exact Hx.
Qed.

Lemma filterRadio_size (fl : Flags) : (0 < size (filterRadio fl))%nat.
Proof.
  destruct (strings.Split (radiofilter fl) ",") as [|x l] eqn:Hs;
    [destruct (Split_nonempty _ _ Hs)|].
  assert (Hl : lookup_bool (filterRadio fl) (strings.ToLower (strings.TrimSpace x)) = true).
  { apply filterRadio_lookup. exists x. rewrite Hs. split; [left|]; reflexivity. }
  apply lookup_bool_true in Hl.
  destruct (size (filterRadio fl)) eqn:Hsz; [|lia].
  apply map_size_empty_iff in Hsz. rewrite Hsz, lookup_empty in Hl. discriminate.
Qed.

(** X11: what the two filters hold.  The radio filter has an entry for
    every element of the comma-separated flag, trimmed and in lower case,
    and so is never empty: it is in force whatever the flag, and with an
    empty flag it admits the empty radio type only.  The country filter has
    an entry for every element that parses as a 16-bit unsigned number,
    untrimmed; the other elements are dropped. *)
Theorem filters_of_the_flags (fl : Flags) :
  (0 < size (filterRadio fl))%nat
  /\ (forall radio,
        lookup_bool (filterRadio fl) radio = true
        <-> exists x, In x (strings.Split (radiofilter fl) ",")
                      /\ radio = strings.ToLower (strings.TrimSpace x))
  /\ (radiofilter fl = "" ->
      forall radio, lookup_bool (filterRadio fl) radio = true <-> radio = "")
  /\ (forall mcc,
        lookup_bool (filterCountry fl) mcc = true
        <-> exists c, In c (strings.Split (countryfilter fl) ",")
                      /\ strconv.ParseUint c 16 = Some mcc).
Proof.
  split; [apply filterRadio_size|]. split; [apply filterRadio_lookup|].
  split; [|apply filterCountry_lookup].
  intros He radio. rewrite filterRadio_lookup, He. simpl. split.
  - intros (x & [<-|[]] & ->). reflexivity.
  - intros ->. exists "". split; [left|]; reflexivity.
Qed.

Lemma digit_range (c : ascii) (d : Z) : strconv.digit c = Some d -> 0 <= d <= 9.
Proof.
  unfold strconv.digit.
  destruct ((48 <=? Z.of_nat (nat_of_ascii c)) && (Z.of_nat (nat_of_ascii c) <=? 57)) eqn:Hb;
    [|discriminate].
  apply andb_true_iff in Hb as [Hlo Hhi]. intros [= <-]. lia.
Qed.

Lemma digits_nonneg (s : string) :
  forall acc v, 0 <= acc -> strconv.digits s acc = Some v -> 0 <= v.
Proof.
  induction s as [|c s IH]; intros acc v Hacc; simpl.
  - intros [= <-]. exact Hacc.
  - destruct (strconv.digit c) as [d|] eqn:Hd; simpl; [|discriminate].
    apply digit_range in Hd. apply IH. lia.
Qed.

(** A parsed unsigned number fits the width asked for. *)
Lemma ParseUint_range (s : string) (bitSize v : Z) :
  strconv.ParseUint s bitSize = Some v -> 0 <= v < 2 ^ bitSize.
Proof.
  unfold strconv.ParseUint. destruct s as [|c s]; [discriminate|].
  destruct (strconv.digits (String c s) 0) as [v'|] eqn:Hd; simpl; [|discriminate].
  destruct (v' <? 2 ^ bitSize) eqn:Hlt; [|discriminate].
  intros [= <-]. apply Z.ltb_lt in Hlt. split; [|exact Hlt].
  eapply digits_nonneg; [|exact Hd]. lia.
Qed.

Lemma lower_idempotent (c : ascii) : strings.lower (strings.lower c) = strings.lower c.
Proof. destruct c as [[] [] [] [] [] [] [] []]; reflexivity. Qed.

Lemma ToLower_idempotent (s : string) :
  strings.ToLower (strings.ToLower s) = strings.ToLower s.
Proof.
  induction s as [|c s IH]; simpl; [reflexivity|].
  rewrite lower_idempotent, IH. reflexivity.
Qed.

Lemma index_Return {A} (l : list A) (i : nat) (x : A) :
  index l i = Return x <-> l !! i = Some x.
Proof. unfold index. destruct (l !! i); split; congruence. Qed.

(** The tests of the body of the reading loop, one after the other, for a
    row that is staged. *)
Ltac row_steps record fl :=
  unfold row, index;
  destruct (record !! 0%nat) as [r0|] eqn:H0; simpl; [|discriminate];
  destruct ((0 <? Z.of_nat (size (filterRadio fl)))
            && negb (lookup_bool (filterRadio fl) (strings.ToLower r0))) eqn:Hfr;
    [discriminate|];
  destruct (record !! 9%nat) as [r9|] eqn:H9; simpl; [|discriminate];
  destruct (strconv.ParseInt r9 32) as [samples|] eqn:Hs; [|discriminate];
  destruct (samples <? minSamples fl) eqn:Hmin; [discriminate|];
  destruct (record !! 1%nat) as [r1|] eqn:H1; simpl; [|discriminate];
  destruct (strconv.ParseUint r1 16) as [mcc|] eqn:Hmcc; [|discriminate];
  destruct ((0 <? Z.of_nat (size (filterCountry fl)))
            && negb (lookup_bool (filterCountry fl) mcc)) eqn:Hfc; [discriminate|];
  destruct (record !! 2%nat) as [r2|] eqn:H2; simpl; [|discriminate];
  destruct (strconv.ParseUint r2 16) as [mnc|] eqn:Hmnc; [|discriminate];
  destruct (record !! 3%nat) as [r3|] eqn:H3; simpl; [|discriminate];
  destruct (strconv.ParseUint r3 16) as [area|] eqn:Harea; [|discriminate];
  destruct (record !! 4%nat) as [r4|] eqn:H4; simpl; [|discriminate];
  destruct (strconv.ParseUint r4 32) as [cell|] eqn:Hcell; [|discriminate];
  destruct (record !! 6%nat) as [r6|] eqn:H6; simpl; [|discriminate];
  destruct (ParseFloat r6) as [lon|] eqn:Hlon; [|discriminate];
  destruct (record !! 7%nat) as [r7|] eqn:H7; simpl; [|discriminate];
  destruct (ParseFloat r7) as [lat|] eqn:Hlat; [|discriminate];
  destruct (record !! 8%nat) as [r8|] eqn:H8; simpl; [|discriminate];
  destruct (ParseFloat r8) as [distance|] eqn:Hdist; [|discriminate].

(** The key of a staged row is a valid one. *)
Lemma row_valid_key (fl : Flags) (record : list string) (k : Key) (d : Data) :
  row fl record = Return (Some (k, d)) -> valid_key k.
Proof.
  row_steps record fl. intros [= <- <-].
  unfold valid_key. simpl. split; [apply ToLower_idempotent|].
  repeat split; eapply ParseUint_range; eassumption.
Qed.

(** X12: a row is staged only when it passes every filter and every field
    parses.  The key has the lower-cased column 0 as radio type, which is an
    entry of the radio filter, and the numbers of columns 1 to 4 as codes,
    each within the width of its type; the country code is an entry of the
    country filter unless that filter is empty; column 9 parses as a
    32-bit signed number that is not below the minimum; the data are the
    numbers of column 6 (longitude), 7 (latitude) and 8 (accuracy). *)
Theorem staged_row_passed_the_filters (fl : Flags) (record : list string)
    (k : Key) (d : Data) :
  row fl record = Return (Some (k, d)) ->
  valid_key k
  /\ (exists r0, record !! 0%nat = Some r0 /\ RadioType k = strings.ToLower r0)
  /\ lookup_bool (filterRadio fl) (RadioType k) = true
  /\ (size (filterCountry fl) = 0%nat
      \/ lookup_bool (filterCountry fl) (MobileCountryCode k) = true)
  /\ (exists r9 samples, record !! 9%nat = Some r9
                         /\ strconv.ParseInt r9 32 = Some samples
                         /\ minSamples fl <= samples)
  /\ (exists r1 r2 r3 r4,
        record !! 1%nat = Some r1 /\ strconv.ParseUint r1 16 = Some (MobileCountryCode k)
        /\ record !! 2%nat = Some r2 /\ strconv.ParseUint r2 16 = Some (MobileNetworkCode k)
        /\ record !! 3%nat = Some r3 /\ strconv.ParseUint r3 16 = Some (LocationAreaCode k)
        /\ record !! 4%nat = Some r4 /\ strconv.ParseUint r4 32 = Some (CellId k))
  /\ (exists r6 r7 r8,
        record !! 6%nat = Some r6 /\ ParseFloat r6 = Some (geo.Longitude (Location d))
        /\ record !! 7%nat = Some r7 /\ ParseFloat r7 = Some (geo.Latitude (Location d))
        /\ record !! 8%nat = Some r8 /\ ParseFloat r8 = Some (Accuracy d)).
Proof.
  row_steps record fl.
  intros [= <- <-]. simpl.
  split; [|split; [|split; [|split; [|split; [|split]]]]].
  - unfold valid_key. simpl. split; [apply ToLower_idempotent|].
    repeat split; eapply ParseUint_range; eassumption.
  - eauto.
  - apply andb_false_iff in Hfr as [Hsz|Hl].
    + pose proof (filterRadio_size fl). apply Z.ltb_ge in Hsz. lia.
    + apply negb_false_iff in Hl. exact Hl.
  - apply andb_false_iff in Hfc as [Hsz|Hl].
    + left. apply Z.ltb_ge in Hsz. lia.
    + right. apply negb_false_iff in Hl. exact Hl.
  - exists r9, samples. apply Z.ltb_ge in Hmin. auto.
  - exists r1, r2, r3, r4. repeat split; assumption.
  - exists r6, r7, r8. repeat split; assumption.
Qed.

End ImportFacts.

Section ImportRunFacts.
Context `{GoFloat64}.
Import lbs_import.

Lemma uint64_succ (x : Z) : uint64 (uint64 x + 1) = uint64 (x + 1).
Proof. unfold uint64. apply Zplus_mod_idemp_l. Qed.

(** The two counters of the loop: the staged upserts and the records read,
    both modulo 2^64. *)
Lemma read_loop_counts (fl : Flags) (file : list (option (list string))) :
  forall (fpr c l : Z) (b : list (Key * Data)) (n : nat),
  c = uint64 (Z.of_nat (length b)) ->
  l = uint64 (Z.of_nat n) ->
  forall c' l' b',
    read_loop fl file fpr c l b = LoopEOF c' l' b' ->
    c' = uint64 (Z.of_nat (length b'))
    /\ l' = uint64 (Z.of_nat (n + length file)).
Proof.
  induction file as [|next file IH]; intros fpr c l b n Hc Hl c' l' b'; simpl.
  - intros [= <- <- <-]. rewrite Nat.add_0_r. auto.
  - destruct (csv.Read fpr next) as [[|record] fpr']; [discriminate|].
    assert (Hl' : uint64 (l + 1) = uint64 (Z.of_nat (S n))).
    { rewrite Hl, uint64_succ. f_equal. lia. }
    rewrite <- Nat.add_succ_comm.
    destruct (uint64 (l + 1) =? 1); [apply IH; assumption|].
    destruct (row fl record) as [[upsert|]|p]; [| |discriminate].
    + apply IH; [|assumption].
      rewrite Hc, uint64_succ, length_app. f_equal. simpl. lia.
    + apply IH; assumption.
Qed.

Lemma read_loop_staged_length (fl : Flags) (file : list (option (list string))) :
  forall (fpr c l : Z) (b : list (Key * Data)),
  (length (staged (read_loop fl file fpr c l b)) <= length b + length file)%nat.
Proof.
  induction file as [|next file IH]; intros fpr c l b; simpl; [lia|].
  destruct (csv.Read fpr next) as [[|record] fpr']; [simpl; lia|].
  destruct (uint64 (l + 1) =? 1).
  - etransitivity; [apply IH|]. lia.
  - destruct (row fl record) as [[upsert|]|p]; [| |simpl; lia].
    + etransitivity; [apply IH|]. rewrite length_app. simpl. lia.
    + etransitivity; [apply IH|]. lia.
Qed.

Lemma read_loop_refused (fl : Flags) (file : list (option (list string))) (fpr : Z) :
  0 < fpr ->
  Exists (refused fpr) file ->
  forall c l b c' l' b', read_loop fl file fpr c l b <> LoopEOF c' l' b'.
Proof.
  intros Hpos. induction file as [|next file IH]; intros Hex c l b c' l' b'.
  - inversion Hex.
  - simpl. unfold csv.Read. destruct next as [record|]; [|discriminate].
    destruct (Z.eqb_spec fpr 0) as [Hz|_]; [lia|].
    destruct (Z.ltb_spec 0 fpr) as [_|Hn]; [|lia]. cbn [andb].
    destruct (Z.eqb_spec (Z.of_nat (length record)) fpr) as [Heq|Hne]; [|discriminate].
    cbn [negb]. assert (Hex' : Exists (refused fpr) file).
    { inversion Hex as [? ? Hr|]; [contradiction|assumption]. }
    destruct (uint64 (l + 1) =? 1); [rewrite Heq; apply IH; exact Hex'|].
    destruct (row fl record) as [[upsert|]|p]; [| |discriminate]; apply IH; exact Hex'.
Qed.

(** A run whose reading loop does not end at the end of the file with a
    counter that is not 0 leaves the documents as they were, issues at most
    [EnsureIndex], and does not reach its end. *)
Lemma main_without_commit (fl : Flags) (args : list string) (w : World)
    (s : mgo.Session) :
  (forall filename file s1 c l b,
     prologue fl args w s = inr (filename, file, s1) ->
     read_loop fl file 0 0 0 [] = LoopEOF c l b -> c = 0) ->
  mgo.docs (main fl args w s).2 = mgo.docs s
  /\ (mgo.trace (main fl args w s).2 = mgo.trace s
      \/ mgo.trace (main fl args w s).2 = mgo.trace s ++ [mgo.OpEnsureIndex])
  /\ (forall total, (main fl args w s).1 <> Return (ExitDone total)).
Proof.
  intros Hc. unfold main.
  destruct (prologue fl args w s) as [[e s1]|[[filename file] s1]] eqn:Hp.
  - apply prologue_early in Hp as [[->| ->] He]; simpl;
      (split; [reflexivity|split; [auto|]]); intros total [= ->]; apply (He total eq_refl).
  - specialize (Hc filename file s1). apply prologue_goes_on in Hp as (_ & -> & _).
    destruct (read_loop fl file 0 0 0 []) as [c l b|b|p b].
    + rewrite (Hc c l b eq_refl eq_refl). simpl.
      split; [reflexivity|split; [auto|discriminate]].
    + simpl. split; [reflexivity|split; [auto|discriminate]].
    + simpl. split; [reflexivity|split; [auto|discriminate]].
Qed.

Lemma prologue_file (fl : Flags) (args : list string) (w : World)
    (s s1 : mgo.Session) (filename : string) (file : list (option (list string))) :
  prologue fl args w s = inr (filename, file, s1) ->
  Open w (default "" (args !! 0%nat)) = Some file.
Proof.
  unfold prologue.
  destruct (negb (length args =? 1)%nat); [discriminate|].
  destruct (negb (ParseURL_ok w (mongourl fl))); [discriminate|].
  destruct (negb (Dial_ok w)); [discriminate|].
  destruct (mgo.EnsureIndex s) as [[e|] s2]; [discriminate|].
  destruct (Open w (default "" (args !! 0%nat))); [|discriminate].
  intros [= _ <- _]. reflexivity.
Qed.

(** X14: a file that has, after its first record, a malformed record or a
    record whose number of fields differs from that of the first one makes
    the run end before any delete or upsert, also when rows before that
    record were accepted: the documents are what they were. *)
Theorem bad_record_aborts_the_run (fl : Flags) (filename : string) (w : World)
    (s : mgo.Session) (header : list string) (rows : list (option (list string))) :
  Open w filename = Some (Some header :: rows) ->
  header <> [] ->
  In None rows \/ (exists record, In (Some record) rows /\ length record <> length header) ->
  mgo.docs (main fl [filename] w s).2 = mgo.docs s
  /\ (mgo.trace (main fl [filename] w s).2 = mgo.trace s
      \/ mgo.trace (main fl [filename] w s).2 = mgo.trace s ++ [mgo.OpEnsureIndex])
  /\ (forall total, (main fl [filename] w s).1 <> Return (ExitDone total)).
Proof.
  intros Ho Hh Hbad. apply main_without_commit.
  intros fn file s1 c l b Hp Hl. exfalso.
  apply prologue_file in Hp. simpl in Hp. rewrite Ho in Hp. injection Hp as <-.
  revert Hl. cbn [read_loop csv.Read]. change (0 =? 0) with true. cbn iota.
  change (uint64 (0 + 1) =? 1) with true. cbn iota.
  apply read_loop_refused.
  - destruct header; [contradiction | simpl; lia].
  - apply Exists_exists. destruct Hbad as [Hn|(record & Hin & Hlen)].
    + exists None. split; [apply list_elem_of_In; exact Hn | exact I].
    + exists (Some record). split; [apply list_elem_of_In; exact Hin|]. simpl. lia.
Qed.

(** X15: the first record of the file is never imported: a file of [n]
    records stages at most [n - 1] upserts, whatever its first record
    holds. *)
Theorem first_record_is_skipped (fl : Flags) (file : list (option (list string))) :
  (length (staged (read_loop fl file 0 0 0 [])) <= length file - 1)%nat.
Proof.
  destruct file as [|next file]; [simpl; lia|].
  cbn [read_loop]. destruct (csv.Read 0 next) as [[|record] fpr'] eqn:Hr; [simpl; lia|].
  change (uint64 (0 + 1) =? 1) with true. cbn iota.
  etransitivity; [apply read_loop_staged_length|]. simpl. lia.
Qed.

(** X16: when the loop reaches the end of the file, its counter is the
    number of staged upserts and its line count the number of records,
    both modulo 2^64; so for fewer than 2^64 staged upserts the test
    [counter == 0] holds exactly when nothing is staged. *)
Theorem counter_counts_the_staged_rows (fl : Flags)
    (file : list (option (list string))) (counter lines : Z)
    (bulk : list (Key * Data)) :
  read_loop fl file 0 0 0 [] = LoopEOF counter lines bulk ->
  counter = Z.of_nat (length bulk) mod 2 ^ 64
  /\ lines = Z.of_nat (length file) mod 2 ^ 64
  /\ (Z.of_nat (length bulk) < 2 ^ 64 -> (counter = 0 <-> bulk = [])).
Proof.
  intros Hl.
  destruct (read_loop_counts fl file 0 0 0 [] 0 eq_refl eq_refl _ _ _ Hl) as [Hc Hn].
  split; [exact Hc|]. split; [exact Hn|].
  intros Hlt. rewrite Hc. unfold uint64. rewrite Z.mod_small by lia. split.
  - intros Hz. destruct bulk; [reflexivity | simpl in Hz; lia].
  - intros ->. reflexivity.
Qed.

(** A document whose key no upsert of the sequence has is left as it was. *)
Lemma upserts_other (bulk : list (Key * Data)) :
  forall (m : gmap Key Data) (k : Key),
  (forall d, ~ In (k, d) bulk) -> foldl mgo.upsert m bulk !! k = m !! k.
Proof.
  induction bulk as [|[k' d'] bulk IH]; intros m k Hk; simpl; [reflexivity|].
  rewrite IH by (intros d Hin; apply (Hk d); right; exact Hin).
  unfold mgo.upsert. simpl. apply lookup_insert_ne.
  intros ->. apply (Hk d'). left. reflexivity.
Qed.

(** With one upsert per key, every key gets the data of its upsert. *)
Lemma upserts_unique (bulk : list (Key * Data)) :
  forall (m : gmap Key Data) (k : Key) (d : Data),
  List.NoDup bulk.*1 -> In (k, d) bulk -> foldl mgo.upsert m bulk !! k = Some d.
Proof.
  induction bulk as [|[k' d'] bulk IH]; intros m k d Hnd; simpl; [intros []|].
  inversion Hnd as [|? ? Hnin Hnd']. intros [[= -> ->]|Hin].
  - rewrite upserts_other.
    + unfold mgo.upsert. simpl. apply lookup_insert_eq.
    + intros d0 Hin. apply Hnin. apply (in_map fst) in Hin. exact Hin.
  - apply IH; assumption.
Qed.

Lemma upserts_size (bulk : list (Key * Data)) :
  forall m : gmap Key Data,
  (size (foldl mgo.upsert m bulk) <= size m + length bulk)%nat.
Proof.
  induction bulk as [|[k d] bulk IH]; intros m; simpl; [lia|].
  etransitivity; [apply IH|]. unfold mgo.upsert. simpl.
  destruct (m !! k) eqn:Hl.
  - rewrite map_size_insert_Some by eauto. lia.
  - rewrite map_size_insert_None by exact Hl. lia.
Qed.

Lemma In_take {A} (x : A) (n : nat) (l : list A) : In x (take n l) -> In x l.
Proof.
  intros Hin. apply list_elem_of_In. eapply elem_of_sublist; [|apply sublist_take].
  apply list_elem_of_In. exact Hin.
Qed.

(** What a run that reaches its end has done. *)
Lemma main_Done (fl : Flags) (args : list string) (w : World) (s s' : mgo.Session)
    (total : Z) :
  main fl args w s = (Return (ExitDone total), s') ->
  exists file c l,
    Open w (default "" (args !! 0%nat)) = Some file
    /\ read_loop fl file 0 0 0 [] = LoopEOF c l (accepted fl args w s)
    /\ c <> 0
    /\ mgo.docs s' = foldl mgo.upsert (if full_mode args then ∅ else mgo.docs s)
                            (accepted fl args w s)
    /\ total = Z.of_nat (size (mgo.docs s'))
    /\ mgo.trace s' = mgo.trace s
                      ++ mgo.OpEnsureIndex
                         :: (if full_mode args then [mgo.OpRemoveAll] else [])
                         ++ [mgo.OpBulkRun (accepted fl args w s); mgo.OpCount].
Proof.
  unfold accepted, main.
  destruct (prologue fl args w s) as [[e s1]|[[filename file] s1]] eqn:Hp.
  { apply prologue_early in Hp as [_ He]. intros [= -> _]. destruct (He total eq_refl). }
  pose proof (prologue_file _ _ _ _ _ _ _ Hp) as Ho.
  apply prologue_goes_on in Hp as (-> & -> & _).
  destruct (read_loop fl file 0 0 0 []) as [c l bulk|bulk|p bulk] eqn:Hl;
    [|discriminate|discriminate].
  unfold commit. destruct (Z.eqb_spec c 0) as [Hz|Hnz]; [discriminate|].
  unfold full_mode.
  set (s1 := mgo.issue mgo.OpEnsureIndex (mgo.docs s) s).
  destruct (negb (strings.Contains (default "" (args !! 0%nat)) "diff")).
  - unfold mgo.RemoveAll, mgo.BulkRun, mgo.Count.
    destruct (mgo.next_fault s1) as [[k1 e1]|]; [discriminate|].
    set (s2 := mgo.issue mgo.OpRemoveAll ∅ s1).
    destruct (mgo.next_fault s2) as [[k2 e2]|]; [discriminate|].
    set (s3 := mgo.issue (mgo.OpBulkRun bulk) (foldl mgo.upsert (mgo.docs s2) bulk) s2).
    destruct (mgo.next_fault s3) as [[k3 e3]|]; [discriminate|].
    intros [= <- <-]. exists file, c, l. simpl.
    repeat split; try assumption; try reflexivity.
    rewrite <- !app_assoc. reflexivity.
  - unfold mgo.BulkRun, mgo.Count.
    destruct (mgo.next_fault s1) as [[k2 e2]|]; [discriminate|].
    set (s3 := mgo.issue (mgo.OpBulkRun bulk) (foldl mgo.upsert (mgo.docs s1) bulk) s1).
    destruct (mgo.next_fault s3) as [[k3 e3]|]; [discriminate|].
    intros [= <- <-]. exists file, c, l. simpl.
    repeat split; try assumption; try reflexivity.
    rewrite <- !app_assoc. reflexivity.
Qed.

(** X17: an incremental import (the name of the file contains "diff")
    never issues the delete of all documents, however it ends, and leaves
    every document whose key no accepted row has as it was. *)
Theorem incremental_import_keeps_the_rest (fl : Flags) (args : list string)
    (w : World) (s : mgo.Session) :
  full_mode args = false ->
  (forall k, (forall d, ~ In (k, d) (accepted fl args w s)) ->
             mgo.docs (main fl args w s).2 !! k = mgo.docs s !! k)
  /\ ~ In mgo.OpRemoveAll (drop (length (mgo.trace s)) (mgo.trace (main fl args w s).2)).
Proof.
  intros Hfull. unfold accepted, main.
  destruct (prologue fl args w s) as [[e s1]|[[filename file] s1]] eqn:Hp.
  - apply prologue_early in Hp as [[->| ->] _]; simpl.
    + split; [reflexivity|]. rewrite drop_all. intros [].
    + split; [reflexivity|]. rewrite drop_app_length. intros [Heq|[]]. discriminate.
  - apply prologue_goes_on in Hp as (-> & -> & _).
    destruct (read_loop fl file 0 0 0 []) as [c l bulk|bulk|p bulk]; simpl;
      try (split; [reflexivity|]; rewrite drop_app_length; intros [Heq|[]]; discriminate).
    unfold commit.
    destruct (c =? 0);
      [simpl; split; [reflexivity|]; rewrite drop_app_length; intros [Heq|[]]; discriminate|].
    unfold full_mode in Hfull. rewrite Hfull.
    unfold mgo.BulkRun, mgo.Count.
    set (s1 := mgo.issue mgo.OpEnsureIndex (mgo.docs s) s).
    destruct (mgo.next_fault s1) as [[k2 e2]|].
    + simpl. split.
      * intros k Hk. apply upserts_other. intros d Hin. apply (Hk d).
        eapply In_take. exact Hin.
      * rewrite <- !app_assoc, drop_app_length. simpl.
        intros [Heq|[Heq|[]]]; discriminate.
    + set (s3 := mgo.issue (mgo.OpBulkRun bulk) (foldl mgo.upsert (mgo.docs s1) bulk) s1).
      destruct (mgo.next_fault s3) as [[k3 e3]|]; simpl;
        (split; [intros k Hk; apply upserts_other; exact Hk|]);
        rewrite <- !app_assoc, drop_app_length; simpl;
        intros [Heq|[Heq|[Heq|[]]]]; discriminate.
Qed.

(** X18: a full import that reaches its end leaves documents that do not
    depend on what the collection held before: two runs of the same import
    on any two collections end with the same documents and report the same
    total.  In particular a second run of the same full import changes
    nothing.  The file is taken to have one accepted row per key: the bulk
    is unordered, and of two rows for one key the store may keep either. *)
Theorem full_import_forgets_the_past (fl : Flags) (args : list string)
    (w : World) (s1 s2 s1' s2' : mgo.Session) (total1 total2 : Z) :
  full_mode args = true ->
  List.NoDup (accepted fl args w s1).*1 ->
  main fl args w s1 = (Return (ExitDone total1), s1') ->
  main fl args w s2 = (Return (ExitDone total2), s2') ->
  mgo.docs s1' = mgo.docs s2' /\ total1 = total2.
Proof.
  intros Hfull _ H1 H2.
  apply main_Done in H1 as (file1 & c1 & l1 & Ho1 & Hl1 & _ & Hd1 & Ht1 & _).
  apply main_Done in H2 as (file2 & c2 & l2 & Ho2 & Hl2 & _ & Hd2 & Ht2 & _).
  rewrite Ho1 in Ho2. injection Ho2 as <-. rewrite Hl1 in Hl2. injection Hl2 as _ _ Hacc.
  rewrite Hfull in Hd1, Hd2.
  assert (Hd : mgo.docs s1' = mgo.docs s2') by (rewrite Hd1, Hd2, Hacc; reflexivity).
  split; [exact Hd|]. rewrite Ht1, Ht2, Hd. reflexivity.
Qed.

(** X19: the total that a run reports at its end is the number of documents
    that the collection then holds; it is at least 1, and after a full
    import at most the number of accepted rows. *)
Theorem reported_total (fl : Flags) (args : list string) (w : World)
    (s s' : mgo.Session) (total : Z) :
  main fl args w s = (Return (ExitDone total), s') ->
  total = Z.of_nat (size (mgo.docs s'))
  /\ 1 <= total
  /\ (full_mode args = true -> total <= Z.of_nat (length (accepted fl args w s))).
Proof.
  intros Hm. apply main_Done in Hm as (file & c & l & _ & Hl & Hc & Hd & Ht & _).
  split; [exact Ht|]. split.
  - destruct (accepted fl args w s) as [|[k d] bulk] eqn:Hacc.
    + apply (read_loop_counts fl file 0 0 0 [] 0 eq_refl eq_refl) in Hl as [Hc0 _].
      simpl in Hc0. contradiction.
    + assert (Hk : is_Some (mgo.docs s' !! k)).
      { rewrite Hd. eapply upserts_present. left. reflexivity. }
      destruct (size (mgo.docs s')) eqn:Hsz; [|lia].
      apply map_size_empty_iff in Hsz. rewrite Hsz, lookup_empty in Hk.
      destruct Hk as [? Hk]. discriminate.
  - intros Hfull. rewrite Hfull in Hd. rewrite Ht, Hd.
    pose proof (upserts_size (accepted fl args w s) ∅) as Hs.
    rewrite map_size_empty in Hs. lia.
Qed.

(** X20: import, then look up.  After a full import that reaches its end
    and whose accepted rows have one row per key, a request that observes
    the tower of an accepted row, under its radio type (which must not be
    empty), gets from GetCells the data of that row and nothing else. *)
Theorem imported_row_is_found (fl : Flags) (args : list string) (w : World)
    (s s' : mgo.Session) (total : Z) (database : string) (k : Key) (d : Data) :
  full_mode args = true ->
  main fl args w s = (Return (ExitDone total), s') ->
  List.NoDup (accepted fl args w s).*1 ->
  In (k, d) (accepted fl args w s) ->
  RadioType k <> "" ->
  mgo.next_fault s' = None ->
  (GetCells {| name := database; session := s' |} (request_of k)).1 = Return ([d], None).
Proof.
  intros Hfull Hm Hnd Hin Hr Hf.
  apply main_Done in Hm as (file & c & l & _ & _ & _ & Hd & _ & _).
  assert (Hl : mgo.docs s' !! k = Some d).
  { rewrite Hd. apply upserts_unique; assumption. }
  rewrite GetCells_result, (search_request_of k Hr).
  cbn [request_of locator.CellTowers length Nat.eqb andb session].
  unfold mgo.Find. rewrite Hf, (filter_query_of _ k d Hl). reflexivity.
Qed.

Lemma read_loop_valid (fl : Flags) (file : list (option (list string))) :
  forall (fpr c l : Z) (b : list (Key * Data)),
  Forall (fun kd => valid_key kd.1) b ->
  Forall (fun kd => valid_key kd.1) (staged (read_loop fl file fpr c l b)).
Proof.
  induction file as [|next file IH]; intros fpr c l b Hb; simpl; [exact Hb|].
  destruct (csv.Read fpr next) as [[|record] fpr']; [exact Hb|].
  destruct (uint64 (l + 1) =? 1); [apply IH; exact Hb|].
  destruct (row fl record) as [[[k d]|]|p] eqn:Hrow; [| |exact Hb].
  - apply IH. apply Forall_app. split; [exact Hb|].
    constructor; [|constructor]. simpl. eapply row_valid_key. exact Hrow.
  - apply IH. exact Hb.
Qed.

Lemma valid_upserts (bulk : list (Key * Data)) (m : gmap Key Data) :
  valid_store m -> Forall (fun kd => valid_key kd.1) bulk ->
  valid_store (foldl mgo.upsert m bulk).
Proof.
  intros Hm Hb k d Hl. apply upserts_lookup in Hl as [Hl|Hin]; [eapply Hm; exact Hl|].
  rewrite Forall_forall in Hb. apply (Hb (k, d)). apply list_elem_of_In. exact Hin.
Qed.

Lemma valid_remainder (m : gmap Key Data) (n : nat) :
  valid_store m -> valid_store (list_to_map (drop n (map_to_list m))).
Proof.
  intros Hm k d Hl. apply elem_of_list_to_map_2 in Hl.
  eapply elem_of_sublist in Hl; [|apply sublist_drop].
  apply elem_of_map_to_list in Hl. eapply Hm. exact Hl.
Qed.

(** X21: the import keeps the keys of the collection well formed.  If every
    document has a lower-case radio type and codes within the widths of
    their types before a run, then so has every document after it, however
    the run ends. *)
Theorem import_keeps_keys_valid (fl : Flags) (args : list string) (w : World)
    (s : mgo.Session) :
  valid_store (mgo.docs s) -> valid_store (mgo.docs (main fl args w s).2).
Proof.
  intros Hs. unfold main.
  destruct (prologue fl args w s) as [[e s1]|[[filename file] s1]] eqn:Hp.
  - apply prologue_early in Hp as [[->| ->] _]; exact Hs.
  - apply prologue_goes_on in Hp as (_ & -> & _).
    pose proof (read_loop_valid fl file 0 0 0 [] (List.Forall_nil _)) as Hb.
    destruct (read_loop fl file 0 0 0 []) as [c l bulk|bulk|p bulk]; [|exact Hs|exact Hs].
    simpl in Hb. unfold commit. destruct (c =? 0); [exact Hs|].
    set (s1 := mgo.issue mgo.OpEnsureIndex (mgo.docs s) s).
    assert (Hrun : forall s2, valid_store (mgo.docs s2) ->
              valid_store (mgo.docs
                (let '(e, s3) :=
                   match mgo.BulkRun bulk s2 with
                   | (Some _, s3) => (ExitBulk, s3)
                   | (None, s3) =>
                       match mgo.Count s3 with
                       | (_, Some _, s4) => (ExitCount, s4)
                       | (total, None, s4) => (ExitDone total, s4)
                       end
                   end in (Return e, s3)).2)).
    { intros s2 Hs2. unfold mgo.BulkRun, mgo.Count.
      destruct (mgo.next_fault s2) as [[k2 e2]|].
      - simpl. apply valid_upserts; [exact Hs2|]. apply Forall_take. exact Hb.
      - set (s3 := mgo.issue _ _ s2).
        destruct (mgo.next_fault s3) as [[k3 e3]|]; simpl;
          apply valid_upserts; assumption. }
    destruct (negb (strings.Contains filename "diff")).
    + unfold mgo.RemoveAll. destruct (mgo.next_fault s1) as [[k1 e1]|].
      * simpl. apply valid_remainder. exact Hs.
      * apply Hrun. simpl. intros k d Hl. rewrite lookup_empty in Hl. discriminate.
    + apply Hrun. exact Hs.
Qed.

(** The cells of GetCells are data of documents that its query matches. *)
Lemma GetCells_cells (db db' : DB) (req : locator.Request) (cells : list Data)
    (err : option error) :
  GetCells db req = (Return (cells, err), db') ->
  cells = []
  \/ exists q, search req = Return q
               /\ forall d, In d cells ->
                     exists k, mgo.docs (session db) !! k = Some d
                               /\ mgo.matches q k = true.
Proof.
  unfold GetCells.
  destruct ((length (locator.CellTowers req) =? 0)%nat
            && (length (locator.WifiAccessPoints req) =? 0)%nat);
    [intros [= <- _ _]; left; reflexivity|].
  destruct (search req) as [q|p]; [|discriminate]. intros Hfind. right. exists q.
  split; [reflexivity|]. intros d Hin.
  assert (Hfound : In d (List.filter (fun kd => mgo.matches q kd.1)
                           (map_to_list (mgo.docs (session db)))).*2).
  { unfold mgo.Find in Hfind. destruct (mgo.next_fault (session db)) as [[n e]|];
      simpl in Hfind; injection Hfind as <- _ _; [eapply In_take|]; exact Hin. }
  apply list_elem_of_In, list_elem_of_fmap in Hfound as ([k d'] & -> & Hkd).
  apply list_elem_of_In, List.filter_In in Hkd as [Hkd Hm].
  exists k. split; [apply elem_of_map_to_list, list_elem_of_In; exact Hkd | exact Hm].
Qed.

(** The radio type of the query: that of the request, or the default. *)
Lemma search_radio (req : locator.Request) (q : mgo.Search) :
  search req = Return q ->
  mgo.s_radio q = if String.eqb (locator.RadioType req) ""
                  then DefaultRadioType else locator.RadioType req.
Proof.
  unfold search.
  repeat match goal with
         | |- mbind _ ?m = _ -> _ => destruct m; simpl; [|discriminate]
         end.
  intros [= <-]. reflexivity.
Qed.


(** X23: GetCells compares the radio type of the request as it is, while
    the import stores it in lower case: in a collection whose keys are
    well formed, a request whose radio type has an upper-case letter
    matches nothing. *)
Theorem upper_case_radio_matches_nothing (db db' : DB) (req : locator.Request)
    (cells : list Data) (err : option error) :
  valid_store (mgo.docs (session db)) ->
  strings.ToLower (locator.RadioType req) <> locator.RadioType req ->
  GetCells db req = (Return (cells, err), db') ->
  cells = [].
Proof.
  intros Hv Hup Hg. apply GetCells_cells in Hg as [->|(q & Hq & Hm)]; [reflexivity|].
  destruct cells as [|d cells]; [reflexivity|]. exfalso.
  destruct (Hm d (or_introl eq_refl)) as (k & Hl & Hk).
  apply matches_true in Hk as (Hr & _). rewrite (search_radio req q Hq) in Hr.
  destruct (Hv k d Hl) as [Hlow _].
  destruct (String.eqb_spec (locator.RadioType req) "") as [He|_].
  - apply Hup. rewrite He. reflexivity.
  - apply Hup. rewrite <- Hr. exact Hlow.
Qed.
End ImportRunFacts.

(** The row of the sample file, staged under the default flags. *)
Lemma staged_row_passed_the_filters_witness :
  valid_key sample.key
  /\ (exists r0, sample.row "GSM" !! 0%nat = Some r0
                 /\ RadioType sample.key = strings.ToLower r0)
  /\ lbs_import.lookup_bool (lbs_import.filterRadio sample.flags) (RadioType sample.key) = true
  /\ (size (lbs_import.filterCountry sample.flags) = 0%nat
      \/ lbs_import.lookup_bool (lbs_import.filterCountry sample.flags)
                                (MobileCountryCode sample.key) = true)
  /\ (exists r9 samples, sample.row "GSM" !! 9%nat = Some r9
                         /\ strconv.ParseInt r9 32 = Some samples
                         /\ lbs_import.minSamples sample.flags <= samples)
  /\ (exists r1 r2 r3 r4,
        sample.row "GSM" !! 1%nat = Some r1
        /\ strconv.ParseUint r1 16 = Some (MobileCountryCode sample.key)
        /\ sample.row "GSM" !! 2%nat = Some r2
        /\ strconv.ParseUint r2 16 = Some (MobileNetworkCode sample.key)
        /\ sample.row "GSM" !! 3%nat = Some r3
        /\ strconv.ParseUint r3 16 = Some (LocationAreaCode sample.key)
        /\ sample.row "GSM" !! 4%nat = Some r4
        /\ strconv.ParseUint r4 32 = Some (CellId sample.key))
  /\ (exists r6 r7 r8,
        sample.row "GSM" !! 6%nat = Some r6
        /\ @ParseFloat Real64 r6 = Some (geo.Longitude (Location sample.imported))
        /\ sample.row "GSM" !! 7%nat = Some r7
        /\ @ParseFloat Real64 r7 = Some (geo.Latitude (Location sample.imported))
        /\ sample.row "GSM" !! 8%nat = Some r8
        /\ @ParseFloat Real64 r8 = Some (Accuracy sample.imported)).
Proof.
  apply (staged_row_passed_the_filters sample.flags (sample.row "GSM")
           sample.key sample.imported).
  reflexivity.
Defined.


(** The sample file followed by a record of two fields. *)
Lemma bad_record_aborts_the_run_witness :
  let w := sample.world [Some sample.header; Some (sample.row "GSM");
                         Some ["gsm"; "250"]] in
  let run := lbs_import.main sample.flags ["cell_towers.csv"] w sample.collection in
  mgo.docs run.2 = mgo.docs sample.collection
  /\ (mgo.trace run.2 = mgo.trace sample.collection
      \/ mgo.trace run.2 = mgo.trace sample.collection ++ [mgo.OpEnsureIndex])
  /\ (forall total, run.1 <> Return (lbs_import.ExitDone total)).
Proof.
  intros w run.
  apply (bad_record_aborts_the_run sample.flags "cell_towers.csv" w sample.collection
           sample.header [Some (sample.row "GSM"); Some ["gsm"; "250"]]).
  - reflexivity.
  - discriminate.
  - right. exists ["gsm"; "250"]. split; [right; left; reflexivity|]. simpl. lia.
Defined.

(** The counters after the sample file: one row staged, two records read. *)
Lemma counter_counts_the_staged_rows_witness :
  1 = Z.of_nat (length [(sample.key, sample.imported)]) mod 2 ^ 64
  /\ 2 = Z.of_nat (length sample.file) mod 2 ^ 64
  /\ (Z.of_nat (length [(sample.key, sample.imported)]) < 2 ^ 64 ->
      (1 = 0 <-> [(sample.key, sample.imported)] = [])).
Proof.
  apply (counter_counts_the_staged_rows sample.flags sample.file 1 2
           [(sample.key, sample.imported)]).
  reflexivity.
Defined.

(** A differential import of the sample file into the sample collection. *)
Lemma incremental_import_keeps_the_rest_witness :
  let args := ["cell_towers.diff.csv"] in
  let w := sample.diff_world sample.file in
  let s := sample.collection in
  (forall k, (forall d, ~ In (k, d) (lbs_import.accepted sample.flags args w s)) ->
             mgo.docs (lbs_import.main sample.flags args w s).2 !! k = mgo.docs s !! k)
  /\ ~ In mgo.OpRemoveAll
         (drop (length (mgo.trace s)) (mgo.trace (lbs_import.main sample.flags args w s).2)).
Proof.
  intros args w s.
  apply (incremental_import_keeps_the_rest sample.flags args w s). reflexivity.
Defined.

(** The same full import into the sample collection and into an empty one. *)
Lemma full_import_forgets_the_past_witness :
  let args := ["cell_towers.csv"] in
  let w := sample.world sample.file in
  let run1 := lbs_import.main sample.flags args w sample.collection in
  let run2 := lbs_import.main sample.flags args w sample.empty_collection in
  mgo.docs run1.2 = mgo.docs run2.2 /\ 1 = 1.
Proof.
  intros args w run1 run2.
  assert (Hacc : lbs_import.accepted sample.flags args w sample.collection
                 = [(sample.key, sample.imported)]) by reflexivity.
  apply (full_import_forgets_the_past sample.flags args w
           sample.collection sample.empty_collection run1.2 run2.2 1 1);
    [reflexivity | rewrite Hacc; constructor; [intros [] | constructor]
    | reflexivity | reflexivity].
Defined.

(** The total of the sample import. *)
Lemma reported_total_witness :
  let args := ["cell_towers.csv"] in
  let w := sample.world sample.file in
  let run := lbs_import.main sample.flags args w sample.collection in
  1 = Z.of_nat (size (mgo.docs run.2))
  /\ 1 <= 1
  /\ (lbs_import.full_mode args = true ->
      1 <= Z.of_nat (length (lbs_import.accepted sample.flags args w sample.collection))).
Proof.
  intros args w run.
  apply (reported_total sample.flags args w sample.collection run.2 1). reflexivity.
Defined.

(** The row of the sample import, looked up after the import. *)
Lemma imported_row_is_found_witness :
  let args := ["cell_towers.csv"] in
  let w := sample.world sample.file in
  let run := lbs_import.main sample.flags args w sample.collection in
  (GetCells {| name := "geotrace"; session := run.2 |} (request_of sample.key)).1
  = Return ([sample.imported], None).
Proof.
  intros args w run.
  assert (Hacc : lbs_import.accepted sample.flags args w sample.collection
                 = [(sample.key, sample.imported)]) by reflexivity.
  apply (imported_row_is_found sample.flags args w sample.collection run.2 1
           "geotrace" sample.key sample.imported).
  - reflexivity.
  - reflexivity.
  - rewrite Hacc. constructor; [intros [] | constructor].
  - rewrite Hacc. left. reflexivity.
  - discriminate.
  - reflexivity.
Defined.

Lemma sample_keys_valid : valid_key sample.key /\ valid_key sample.old_key.
Proof. unfold valid_key. simpl. repeat split; (reflexivity || discriminate). Qed.

(** The sample import keeps the keys of the sample collection valid. *)
Lemma import_keeps_keys_valid_witness :
  valid_store (mgo.docs (lbs_import.main sample.flags ["cell_towers.csv"]
                           (sample.world sample.file) sample.collection).2).
Proof.
  apply (import_keeps_keys_valid sample.flags ["cell_towers.csv"]
           (sample.world sample.file) sample.collection).
  intros k d Hl. cbn [mgo.docs sample.collection] in Hl.
  apply lookup_singleton_Some in Hl as [<- _]. apply sample_keys_valid.
Defined.


(** The request of the round-trip example with its radio type in upper
    case. *)
Lemma upper_case_radio_matches_nothing_witness :
  let db := sample.store {[sample.key := sample.data 50]} sample.healthy in
  let req := {| locator.HomeMobileCountryCode := 0; locator.HomeMobileNetworkCode := 0;
                locator.RadioType := "GSM";
                locator.CellTowers := [Some (sample.tower 2 7743 22517)];
                locator.WifiAccessPoints := [] |} in
  (GetCells db req).1 = Return ([], None) /\ @nil (@Data Real64) = [].
Proof.
  intros db req. split; [reflexivity|].
  apply (upper_case_radio_matches_nothing db (GetCells db req).2 req [] None).
  - intros k d Hl. unfold db in Hl. cbn [mgo.docs session sample.store] in Hl.
    apply lookup_singleton_Some in Hl as [<- _]. apply sample_keys_valid.
  - discriminate.
  - reflexivity.
Defined.
